(** * News aggregator: the fetch / fallback / cache pipeline

    A shallow embedding of [src/utils/cache.js] (class [Cache] and its
    exported singleton), [src/config/index.js] and
    [src/services/newsService.js], with the properties of the pipeline
    stated and proved over it.

    JavaScript strings are modelled as [string] (a character stands for
    one code unit, of those below 256), arrays of preference terms as [list string] living in
    a heap of arrays (they are passed by reference and one method sorts
    them in place), the [Map] inside the cache as a [gmap], time values
    as whole milliseconds in [Z].  The clock ([Date.now()],
    [new Date()]), [Math.random()] and the two remote providers are
    oracles: every read of the clock takes the next reading of a stream,
    every draw the next number, every HTTP request is logged and
    answered by a function of the request.  The [async] functions run
    one after the other, as one request's pipeline does. *)

From Stdlib Require Import ZArith Ascii.
From stdpp Require Import base option list sorting strings gmap.

(** ** Built-ins of the language used by the sources *)

Module Js.

(** [Array.prototype.sort()] without a comparator, on an array of
    strings: ascending order of code units.  Equal elements are
    indistinguishable, so the result does not depend on the engine's
    algorithm. *)
Definition sort (a : list string) : list string := merge_sort String.le a.

(** [Array.prototype.join(sep)]. *)
Definition join (sep : string) (a : list string) : string :=
  String.concat sep a.

(** [a.length > 0 ? a.join(' OR ') : 'general'] is written with this. *)
Definition nonEmpty {A} (a : list A) : bool :=
  match a with [] => false | _ :: _ => true end.

(** [s.charAt(0)]: the first code unit as a string, or the empty string. *)
Definition charAt0 (s : string) : string :=
  match s with
  | EmptyString => EmptyString
  | String c _ => String c EmptyString
  end.

(** [s.slice(1)]. *)
Definition slice1 (s : string) : string :=
  match s with
  | EmptyString => EmptyString
  | String _ r => r
  end.

(** [toUpperCase], on strings of code units below 256.  The letters
    a-z and the small letters of Latin-1 (U+00E0 to U+00FE but the
    division sign U+00F7) go to their capitals, 32 below; the sharp s
    U+00DF goes to "SS"; every other code unit is its own capital, but
    for two: the capitals of the micro sign U+00B5 and of U+00FF lie
    beyond the code units a character can hold here, and the two are
    left as they are (no property below is stated for them). *)
Definition upper (c : ascii) : ascii :=
  let n := N_of_ascii c in
  if (((97 <=? n) && (n <=? 122))
      || ((224 <=? n) && (n <=? 254) && negb (n =? 247)))%N
  then ascii_of_N (n - 32) else c.

Fixpoint toUpperCase (s : string) : string :=
  match s with
  | EmptyString => EmptyString
  | String c r =>
      if (N_of_ascii c =? 223)%N
      then String "S" (String "S" (toUpperCase r))
      else String (upper c) (toUpperCase r)
  end.

(** [hay.includes(needle)]. *)
Fixpoint includes (needle hay : string) : bool :=
  String.prefix needle hay ||
  match hay with
  | EmptyString => false
  | String _ r => includes needle r
  end.

(** *** [Date.prototype.toISOString]

    A time value is a whole number of milliseconds since the epoch.
    The civil date is computed from the day number in the proleptic
    Gregorian calendar; years outside 0..9999 take the expanded form
    with a sign and six digits. *)
Section Iso.
Local Open Scope Z_scope.

Definition digit (n : Z) : ascii :=
  ascii_of_N (48 + Z.to_N (n mod 10)).

Fixpoint pad (width : nat) (n : Z) (acc : string) : string :=
  match width with
  | O => acc
  | S w => pad w (n / 10) (String (digit n) acc)
  end.

Definition civil (days : Z) : Z * Z * Z :=
  let z := days + 719468 in
  let era := z / 146097 in
  let doe := z - era * 146097 in
  let yoe := (doe - doe / 1460 + doe / 36524 - doe / 146096) / 365 in
  let doy := doe - (365 * yoe + yoe / 4 - yoe / 100) in
  let mp := (5 * doy + 2) / 153 in
  let d := doy - (153 * mp + 2) / 5 + 1 in
  let m := if mp <? 10 then mp + 3 else mp - 9 in
  let y := yoe + era * 400 + (if m <=? 2 then 1 else 0) in
  (y, m, d).

Definition year (y : Z) : string :=
  if (0 <=? y) && (y <=? 9999) then pad 4 y ""
  else (if y <? 0 then "-" else "+") +:+ pad 6 (Z.abs y) "".

Definition toISOString (ms : Z) : string :=
  let '(y, m, d) := civil (ms / 86400000) in
  let t := ms mod 86400000 in
  year y +:+ "-" +:+ pad 2 m "" +:+ "-" +:+ pad 2 d "" +:+ "T" +:+
   pad 2 (t / 3600000) "" +:+ ":" +:+ pad 2 (t / 60000 mod 60) "" +:+ ":" +:+
   pad 2 (t / 1000 mod 60) "" +:+ "." +:+ pad 3 (t mod 1000) "" +:+ "Z".
End Iso.

End Js.

(** ** Data model *)

(** The normalized article of [newsService.js].  A field a provider left
    out is [None] (the [undefined] or [null] the mapping copies). *)
Record Source := { name : option string; src_url : option string }.

Record Article := {
  title : option string;
  description : option string;
  content : option string;
  url : option string;
  image : option string;
  publishedAt : option string;
  src : Source                        (* the article's [source] object *)
}.

(** An article as a provider sends it.  [n_image] is GNews's [image],
    [n_urlToImage] NewsAPI's [urlToImage]; [n_source] is [None] when the
    article has no [source] object. *)
Record NativeSource := { s_name : option string; s_url : option string }.

Record NativeArticle := {
  n_title : option string;
  n_description : option string;
  n_content : option string;
  n_url : option string;
  n_image : option string;
  n_urlToImage : option string;
  n_publishedAt : option string;
  n_source : option NativeSource
}.

Inductive Provider := GNews | NewsAPI.

(** What [axios.get] does with one request: it throws (network error,
    timeout, status outside 2xx), or resolves to a response whose
    [data.articles] is missing, or is an array of articles. *)
Inductive Response :=
  | Rejected
  | NoArticles
  | Articles (l : list NativeArticle).

(** One request as the log keeps it: the provider, the [q] parameter and
    the key that was sent. *)
Record Request := {
  to : Provider;
  endpoint : string;
  q : string;
  apikey : string
}.

(** The value of [getNews]: [{ news, cached, source }]. *)
Record RetrievalResult := {
  news : list Article;
  cached : bool;
  source : string
}.

(** An entry of the cache's map: [{ data, expiresAt, cachedAt }]. *)
Record CacheEntry := {
  data : list Article;
  expiresAt : Z;
  cachedAt : string
}.

(** An instance of class [Cache]: [this.cache] and [this.ttl]. *)
Record CacheObj := {
  cache : gmap string CacheEntry;
  ttl : Z
}.

(** [src/config/index.js]: the two keys come from the process
    environment and may be absent; the time to live is five minutes. *)
Record Config := {
  gnewsApiKey : option string;
  gnewsBaseUrl : string;
  newsApiKey : option string;
  newsApiBaseUrl : string;
  cache_ttl : Z
}.

Definition config (GNEWS_API_KEY NEWSAPI_KEY : option string) : Config := {|
  gnewsApiKey := GNEWS_API_KEY;
  gnewsBaseUrl := "https://gnews.io/api/v4";
  newsApiKey := NEWSAPI_KEY;
  newsApiBaseUrl := "https://newsapi.org/v2";
  cache_ttl := 5 * 60 * 1000
|}.

(** ** The state of the process *)

(** Arrays of preference terms are objects: a value of type [loc] is a
    reference to one. *)
Abbreviation loc := positive.

Record World := {
  ticks : nat;                        (* clock readings taken so far *)
  draws : nat;                        (* [Math.random()] draws so far *)
  requests : list Request;            (* requests issued, latest first *)
  heap : gmap loc (list string);      (* the arrays of preference terms *)
  singleton : CacheObj                (* [module.exports = new Cache()] *)
}.

(** Constructor [new Cache(ttl = config.cache.ttl)]. *)
Definition newCache (ttl : Z) : CacheObj := {| cache := ∅; ttl := ttl |}.

(** The process right after the modules are loaded, with the given
    arrays already allocated. *)
Definition boot (cfg : Config) (h : gmap loc (list string)) : World := {|
  ticks := 0; draws := 0; requests := []; heap := h;
  singleton := newCache (cache_ttl cfg)
|}.

(** State-passing computations. *)
Definition M (A : Type) : Type := World → A * World.

Definition ret {A} (a : A) : M A := λ w, (a, w).

Definition bind {A B} (m : M A) (k : A → M B) : M B :=
  λ w, let '(a, w') := m w in k a w'.

Notation "'let!' x := m 'in' k" := (bind m (λ x, k))
  (at level 10, x name, m at level 100, k at level 200,
   format "'[v' 'let!'  x  :=  m  'in'  '/' k ']'").
Notation "'run!' m 'in' k" := (bind m (λ _, k))
  (at level 10, m at level 100, k at level 200,
   format "'[v' 'run!'  m  'in'  '/' k ']'").

(** Running [f] on the elements of an array in order and collecting
    what each run yields ([forEach] with a [push] in its body). *)
Fixpoint collect {A B} (f : A → M B) (l : list A) : M (list B) :=
  match l with
  | [] => ret []
  | x :: r => let! y := f x in let! ys := collect f r in ret (y :: ys)
  end.

(** What a call that may throw ends with. *)
Inductive Completion (A : Type) :=
  | Returned (a : A)
  | Threw.
Arguments Returned {A} a.
Arguments Threw {A}.

(** Reading an array through a reference.  References are never
    dangling in the language; the default only makes the read total. *)
Definition deref (p : loc) : M (list string) :=
  λ w, (default [] (heap w !! p), w).

(** In-place update of an array. *)
Definition assign (p : loc) (a : list string) : M unit :=
  λ w, (tt, {| ticks := ticks w; draws := draws w; requests := requests w;
               heap := <[p := a]> (heap w); singleton := singleton w |}).

(** A new array: [[...]]. *)
Definition alloc (a : list string) : M loc :=
  λ w, let p := fresh (dom (heap w)) in
       (p, {| ticks := ticks w; draws := draws w; requests := requests w;
              heap := <[p := a]> (heap w); singleton := singleton w |}).

(** [this] inside the methods of the singleton, and an update of its
    map. *)
Definition this : M CacheObj := λ w, (singleton w, w).

Definition updateMap (f : gmap string CacheEntry → gmap string CacheEntry)
  : M unit :=
  λ w, (tt, {| ticks := ticks w; draws := draws w; requests := requests w;
               heap := heap w;
               singleton := {| cache := f (cache (singleton w));
                               ttl := ttl (singleton w) |} |}).

Section Oracles.

(** The oracles.  [clock i] is the [i]-th reading of the clock in
    milliseconds.  [random i] is, for the [i]-th draw [r] of
    [Math.random()], the whole number of milliseconds that
    [r * 259200000] takes off a time value once the [Date] constructor
    has dropped the fraction (0 to 259200000).  [respond n r] is what
    the [n]-th request of the process meets when it is [r]. *)
Variable clock : nat → Z.
Variable random : nat → Z.
Variable respond : nat → Request → Response.

(** [Date.now()], and the time value of [new Date()]. *)
Definition now : M Z :=
  λ w, (clock (ticks w),
        {| ticks := S (ticks w); draws := draws w; requests := requests w;
           heap := heap w; singleton := singleton w |}).

(** The milliseconds one [Math.random() * 259200000] takes off. *)
Definition randomOffset : M Z :=
  λ w, (random (draws w),
        {| ticks := ticks w; draws := S (draws w); requests := requests w;
           heap := heap w; singleton := singleton w |}).

(** [axios.get]: the request is logged, the oracle answers. *)
Definition axiosGet (r : Request) : M Response :=
  λ w, (respond (length (requests w)) r,
        {| ticks := ticks w; draws := draws w; requests := r :: requests w;
           heap := heap w; singleton := singleton w |}).

End Oracles.

(** ** [src/utils/cache.js] *)

Record Stats := {
  totalEntries : nat;
  validEntries : nat;
  expiredEntries : nat;
  ttlMs : Z
}.

Module Cache.
Section Methods.

Variable clock : nat → Z.

(** [generateKey(preferences)].  [None] is an absent argument.
    [preferences.sort()] sorts the array the caller passed, in place. *)
Definition generateKey (preferences : option loc) : M string :=
  match preferences with
  | None => ret "news:general"
  | Some p =>
      let! a := deref p in
      if negb (Js.nonEmpty a) then ret "news:general"
      else
        let sorted := Js.sort a in
        run! assign p sorted in
        ret ("news:" +:+ Js.join "," sorted)
  end.

(** [get(key)]. *)
Definition get (key : string) : M (option (list Article)) :=
  let! c := this in
  match cache c !! key with
  | None => ret None
  | Some item =>
      let! t := now clock in
      if (expiresAt item <? t)%Z then
        run! updateMap (delete key) in
        ret None
      else ret (Some (data item))
  end.

(** [set(key, data, customTtl)]; [customTtl || this.ttl] takes the
    instance's value when the argument is absent or zero. *)
Definition set (key : string) (data : list Article) (customTtl : option Z)
  : M unit :=
  let! c := this in
  let ttl := match customTtl with
             | Some t => if (t =? 0)%Z then ttl c else t
             | None => ttl c
             end in
  let! t := now clock in
  let! d := now clock in
  updateMap <[key := {| data := data; expiresAt := (t + ttl)%Z;
                        cachedAt := Js.toISOString d |}]>.

(** [delete(key)] *)
Definition delete (key : string) : M unit := updateMap (base.delete key).

(** [clear()] *)
Definition clear : M unit := updateMap (λ _, ∅).

(** [getStats()] *)
Definition getStats : M Stats :=
  let! t := now clock in
  let! c := this in
  let expired := filter (λ kv, (expiresAt kv.2 <? t)%Z = true) (cache c) in
  let valid := filter (λ kv, (expiresAt kv.2 <? t)%Z = false) (cache c) in
  ret {| totalEntries := size (cache c);
         validEntries := size valid;
         expiredEntries := size expired;
         ttlMs := ttl c |}.

End Methods.
End Cache.

(** ** [src/services/newsService.js] *)

Module NewsService.
Section Service.

Variable clock : nat → Z.
Variable random : nat → Z.
Variable respond : nat → Request → Response.
Variable cfg : Config.

(** The body of the [map] callback of [fetchFromGNews].  Reading
    [article.source.name] of an article without a [source] object
    throws: [None]. *)
Definition fromGNews (article : NativeArticle) : option Article :=
  match n_source article with
  | None => None
  | Some s =>
      Some {| title := n_title article;
              description := n_description article;
              content := n_content article;
              url := n_url article;
              image := n_image article;
              publishedAt := n_publishedAt article;
              src := {| name := s_name s; src_url := s_url s |} |}
  end.

(** The body of the [map] callback of [fetchFromNewsAPI]. *)
Definition fromNewsAPI (article : NativeArticle) : option Article :=
  match n_source article with
  | None => None
  | Some s =>
      Some {| title := n_title article;
              description := n_description article;
              content := n_content article;
              url := n_url article;
              image := n_urlToImage article;
              publishedAt := n_publishedAt article;
              src := {| name := s_name s; src_url := None |} |}
  end.

(** [articles.map(f)] inside the [try]: the mapped array, or the
    exception of the first callback that throws. *)
Definition mapArticles (f : NativeArticle → option Article)
    (l : list NativeArticle) : Completion (option (list Article)) :=
  match mapM f l with
  | Some r => Returned (Some r)
  | None => Threw
  end.

(** [preferences.length > 0 ? preferences.join(' OR ') : 'general'] *)
Definition buildQuery (a : list string) : string :=
  if Js.nonEmpty a then Js.join " OR " a else "general".

(** [fetchFromGNews(preferences)].  [Returned None] is the [null] of
    an unconfigured provider; the [catch] rethrows.  The parameters of
    the request that never change ([lang], [max], the timeout) are not
    kept. *)
Definition fetchFromGNews (preferences : loc)
  : M (Completion (option (list Article))) :=
  match gnewsApiKey cfg with
  | None | Some EmptyString => ret (Returned None)
  | Some apiKey =>
      let! a := deref preferences in
      let query := buildQuery a in
      let! response :=
        axiosGet respond {| to := GNews;
                            endpoint := gnewsBaseUrl cfg +:+ "/search";
                            q := query; apikey := apiKey |} in
      match response with
      | Rejected => ret Threw
      | NoArticles => ret (Returned (Some []))
      | Articles l => ret (mapArticles fromGNews l)
      end
  end.

(** [fetchFromNewsAPI(preferences)]. *)
Definition fetchFromNewsAPI (preferences : loc)
  : M (Completion (option (list Article))) :=
  match newsApiKey cfg with
  | None | Some EmptyString => ret (Returned None)
  | Some apiKey =>
      let! a := deref preferences in
      let query := buildQuery a in
      let! response :=
        axiosGet respond {| to := NewsAPI;
                            endpoint := newsApiBaseUrl cfg +:+ "/everything";
                            q := query; apikey := apiKey |} in
      match response with
      | Rejected => ret Threw
      | NoArticles => ret (Returned (Some []))
      | Articles l => ret (mapArticles fromNewsAPI l)
      end
  end.

(** The three fixed articles of [generateMockNews], given the lead
    topic and the three time values read for them. *)
Definition baseArticles (t0 : string) (d1 d2 d3 : Z) : list Article :=
  [ {| title := Some ("Latest updates in " +:+ t0 +:+ " industry");
       description := Some ("Breaking news and developments in the " +:+ t0
                            +:+ " sector that you need to know about today.");
       content := Some ("This is a comprehensive article about the latest trends and updates in "
                        +:+ t0 +:+ ". Stay informed with our in-depth coverage...");
       url := Some ("https://example.com/news/" +:+ t0 +:+ "/article-1");
       image := Some ("https://picsum.photos/seed/" +:+ t0 +:+ "/800/400");
       publishedAt := Some (Js.toISOString d1);
       src := {| name := Some "Mock News Source";
                 src_url := Some "https://example.com" |} |};
    {| title := Some ("Top " +:+ t0 +:+ " stories of the week");
       description := Some ("A roundup of the most important " +:+ t0
                            +:+ " news from this week.");
       content := Some ("Here are the top stories you might have missed in "
                        +:+ t0 +:+ " this week...");
       url := Some ("https://example.com/news/" +:+ t0 +:+ "/article-2");
       image := Some ("https://picsum.photos/seed/" +:+ t0 +:+ "2/800/400");
       publishedAt := Some (Js.toISOString (d2 - 86400000));
       src := {| name := Some "Weekly Digest";
                 src_url := Some "https://example.com" |} |};
    {| title := Some ("Expert analysis on " +:+ t0 +:+ " trends");
       description := Some ("Industry experts share their insights on where "
                            +:+ t0 +:+ " is heading.");
       content := Some ("Our panel of experts discusses the future of " +:+ t0
                        +:+ " and what to expect in the coming months...");
       url := Some ("https://example.com/news/" +:+ t0 +:+ "/article-3");
       image := Some ("https://picsum.photos/seed/" +:+ t0 +:+ "3/800/400");
       publishedAt := Some (Js.toISOString (d3 - 172800000));
       src := {| name := Some "Expert Insights";
                 src_url := Some "https://example.com" |} |} ].

(** The article pushed for one further topic. *)
Definition topicArticle (topic : string) : M Article :=
  let! d := now clock in
  let! r := randomOffset random in
  ret {| title := Some (Js.toUpperCase (Js.charAt0 topic) +:+ Js.slice1 topic
                        +:+ " news update");
         description := Some ("The latest news and updates about " +:+ topic +:+ ".");
         content := Some ("Detailed coverage of " +:+ topic
                          +:+ " news and developments...");
         url := Some ("https://example.com/news/" +:+ topic +:+ "/latest");
         image := Some ("https://picsum.photos/seed/" +:+ topic +:+ "/800/400");
         publishedAt := Some (Js.toISOString (d - r));
         src := {| name := Some "Topic News";
                   src_url := Some "https://example.com" |} |}.

(** [generateMockNews(preferences)].  [topics[0]] of an array without
    a first element would print as "undefined"; [topics] always has
    one. *)
Definition generateMockNews (preferences : loc) : M (list Article) :=
  let! a := deref preferences in
  let topics := if Js.nonEmpty a then a else ["general"] in
  let t0 := hd "undefined" topics in
  let! d1 := now clock in
  let! d2 := now clock in
  let! d3 := now clock in
  let mockArticles := baseArticles t0 d1 d2 d3 in
  if (1 <? length topics)%nat then
    let! more := collect topicArticle (tl topics) in
    ret (mockArticles ++ more)
  else ret mockArticles.

(** [news && news.length > 0] *)
Definition usable (news : option (list Article)) : bool :=
  match news with
  | Some (_ :: _) => true
  | _ => false
  end.

(** [getNews(preferences)].  The two [try] blocks leave [news] and
    [source] as they were when the provider throws. *)
Definition getNews (preferences : loc) : M RetrievalResult :=
  let! cacheKey := Cache.generateKey (Some preferences) in
  let! cachedNews := Cache.get clock cacheKey in
  match cachedNews with
  | Some hit => ret {| news := hit; cached := true; source := "cache" |}
  | None =>
      let news0 : option (list Article) := None in
      let source0 := "mock" in
      let! g := fetchFromGNews preferences in
      let '(news1, source1) :=
        match g with
        | Returned n => (n, if usable n then "gnews" else source0)
        | Threw => (news0, source0)
        end in
      let! second :=
        if negb (usable news1) then
          let! n := fetchFromNewsAPI preferences in
          ret (match n with
               | Returned n => (n, if usable n then "newsapi" else source1)
               | Threw => (news1, source1)
               end)
        else ret (news1, source1) in
      let '(news2, source2) := second in
      let! last :=
        match news2 with
        | Some (x :: r) => ret (x :: r, source2)
        | _ => let! m := generateMockNews preferences in ret (m, "mock")
        end in
      let '(news3, source3) := last in
      run! Cache.set clock cacheKey news3 None in
      ret {| news := news3; cached := false; source := source3 |}
  end.

(** [getNews()] without an argument: the default parameter is a new
    empty array. *)
Definition getNewsDefault : M RetrievalResult :=
  let! p := alloc [] in getNews p.

(** [searchNews(query, preferences)]; [None] is an absent or [null]
    second argument. *)
Definition searchNews (query : string) (preferences : option loc)
  : M RetrievalResult :=
  let! a := match preferences with
            | Some p => deref p
            | None => ret []
            end in
  let! searchTerms := alloc (a ++ [query]) in
  getNews searchTerms.

End Service.
End NewsService.

(** * Vocabulary of the properties *)

(** The key as a function of the array's elements. *)
Definition keyOf (a : list string) : string :=
  if Js.nonEmpty a then "news:" +:+ Js.join "," (Js.sort a) else "news:general".

(** ** Worlds *)

(** Everything of a world but its heap of arrays. *)
Definition outside (w : World) : nat * nat * list Request * CacheObj :=
  (ticks w, draws w, requests w, singleton w).

(** The world with another heap. *)
Definition withHeap (h : gmap loc (list string)) (w : World) : World :=
  {| ticks := ticks w; draws := draws w; requests := requests w;
     heap := h; singleton := singleton w |}.

(** The world with the array behind [p] replaced. *)
Definition withArray (p : loc) (a : list string) (w : World) : World :=
  {| ticks := ticks w; draws := draws w; requests := requests w;
     heap := <[p := a]> (heap w); singleton := singleton w |}.

(** The world after one reading of the clock. *)
Definition tick (w : World) : World :=
  {| ticks := S (ticks w); draws := draws w; requests := requests w;
     heap := heap w; singleton := singleton w |}.

(** The world with the map of the cache replaced. *)
Definition withMap (m : gmap string CacheEntry) (w : World) : World :=
  {| ticks := ticks w; draws := draws w; requests := requests w;
     heap := heap w;
     singleton := {| cache := m; ttl := ttl (singleton w) |} |}.

(** The world with one more request in its log. *)
Definition sent (r : Request) (w : World) : World :=
  {| ticks := ticks w; draws := draws w; requests := r :: requests w;
     heap := heap w; singleton := singleton w |}.

(** The array behind a reference. *)
Definition elements (p : loc) (w : World) : list string :=
  default [] (heap w !! p).

(** ** Stages of the pipeline *)

(** A provider without a usable key: [!apiKey] holds. *)
Definition unconfigured (k : option string) : Prop := k = None ∨ k = Some "".

(** A fetch that ended with a non-empty array. *)
Definition fruitful (c : Completion (option (list Article))) : bool :=
  match c with
  | Returned n => NewsService.usable n
  | Threw => false
  end.

(** The array a fetch ended with, when it is fruitful. *)
Definition payload (c : Completion (option (list Article)))
  : list Article :=
  match c with
  | Returned (Some l) => l
  | _ => []
  end.

(** What a fetch makes of the response. *)
Definition digest (f : NativeArticle → option Article) (r : Response)
  : Completion (option (list Article)) :=
  match r with
  | Rejected => Threw
  | NoArticles => Returned (Some [])
  | Articles l => NewsService.mapArticles f l
  end.

Module Stage.
Section Stages.

Variable clock : nat → Z.
Variable cfg : Config.

(** The first two statements of [getNews]: the key, then the lookup. *)
Definition lookup (p : loc) : M (option (list Article)) :=
  let! cacheKey := Cache.generateKey (Some p) in
  Cache.get clock cacheKey.

(** The last two statements of [getNews]: store, then return. *)
Definition settle (key : string) (news : list Article) (source : string)
  : M RetrievalResult :=
  run! Cache.set clock key news None in
  ret {| news := news; cached := false; source := source |}.

(** The request each provider is sent for an array of terms. *)
Definition gnewsRequest (apiKey : string) (a : list string) : Request :=
  {| to := GNews; endpoint := gnewsBaseUrl cfg +:+ "/search";
     q := NewsService.buildQuery a; apikey := apiKey |}.

Definition newsApiRequest (apiKey : string) (a : list string) : Request :=
  {| to := NewsAPI; endpoint := newsApiBaseUrl cfg +:+ "/everything";
     q := NewsService.buildQuery a; apikey := apiKey |}.

End Stages.
End Stage.

(** *** Two runs on arrays of the same terms

    Two worlds are related when they agree outside the heap and the
    array behind [p1] in the first compares by [rel] with the array
    behind [p2] in the second.  Two computations simulate each other
    from [pre] to [post] when, started in worlds related by [pre], they
    return the same value and end in worlds related by [post]. *)
Module Sim.

Definition related (p1 p2 : loc) (rel : relation (list string))
    (w1 w2 : World) : Prop :=
  outside w1 = outside w2 ∧ rel (elements p1 w1) (elements p2 w2).

Definition sim (p1 p2 : loc) {A} (pre post : relation (list string))
    (m1 m2 : M A) : Prop :=
  ∀ w1 w2, related p1 p2 pre w1 w2 →
    (m1 w1).1 = (m2 w2).1 ∧ related p1 p2 post (m1 w1).2 (m2 w2).2.

End Sim.

(** A computation that neither reads nor writes the heap. *)
Definition heapless {A} (m : M A) : Prop :=
  ∀ w h, m (withHeap h w) = ((m w).1, withHeap h (m w).2).

(** ** Synthesis *)

(** An article without its [publishedAt]. *)
Definition shape (a : Article)
  : option string * option string * option string * option string
    * option string * Source :=
  (title a, description a, content a, url a, image a, src a).

(** [topic.charAt(0).toUpperCase() + topic.slice(1)] *)
Definition capitalized (topic : string) : string :=
  Js.toUpperCase (Js.charAt0 topic) +:+ Js.slice1 topic.

(** The title of an article names the topic. *)
Definition mentions (topic : string) (a : Article) : bool :=
  match title a with
  | Some t => Js.includes topic t
  | None => false
  end.

(** ** Concrete oracles and the scenario of two preferences *)

(** A clock that advances one second per reading, a constant draw, a
    network on which every request fails, and one on which GNews answers
    with one article. *)
Definition everySecond (i : nat) : Z := (1700000000000 + 1000 * Z.of_nat i)%Z.

Definition fiveSeconds (i : nat) : Z := 5000%Z.

Definition offline (n : nat) (r : Request) : Response := Rejected.

Definition headline : NativeArticle := {|
  n_title := Some "Chips get smaller";
  n_description := Some "A report.";
  n_content := None;
  n_url := Some "https://gnews.example/chips";
  n_image := None;
  n_urlToImage := None;
  n_publishedAt := Some "2023-11-14T20:00:00Z";
  n_source := Some {| s_name := Some "Wire"; s_url := None |}
|}.

Definition gnewsOnly (n : nat) (r : Request) : Response :=
  match to r with
  | GNews => Articles [headline]
  | NewsAPI => Rejected
  end.

(** A network on which GNews fails and NewsAPI answers with one
    article, one on which both answer with it, an article without a
    [source] object, and a network that sends it after a good one. *)
Definition newsApiOnly (n : nat) (r : Request) : Response :=
  match to r with
  | GNews => Rejected
  | NewsAPI => Articles [headline]
  end.

Definition bothAnswer (n : nat) (r : Request) : Response :=
  Articles [headline].

Definition orphan : NativeArticle := {|
  n_title := Some "No source";
  n_description := None;
  n_content := None;
  n_url := None;
  n_image := None;
  n_urlToImage := None;
  n_publishedAt := None;
  n_source := None
|}.

Definition oneOrphan (n : nat) (r : Request) : Response :=
  Articles [headline; orphan].

(** An entry that expired long ago. *)
Definition longGone : CacheEntry :=
  {| data := []; expiresAt := 500; cachedAt := "" |}.

Module TwoTopics.
Section Run.

Variable clock : nat → Z.
Variable random : nat → Z.
Variable p : loc.
Variable h : gmap loc (list string).

(** What synthesis makes of the array once [generateKey] has sorted it:
    three articles led by "finance" and one for "sports". *)
Definition scenarioNews : list Article :=
  NewsService.baseArticles "finance" (clock 0) (clock 1) (clock 2)
  ++ [ (NewsService.topicArticle clock random "sports"
          {| ticks := 3; draws := 0; requests := []; heap := ∅;
             singleton := newCache 0 |}).1 ].

Definition scenarioEntry : CacheEntry :=
  {| data := scenarioNews; expiresAt := (clock 4 + 300000)%Z;
     cachedAt := Js.toISOString (clock 5) |}.

Definition scenarioWorld : World :=
  {| ticks := 6; draws := 1; requests := [];
     heap := <[p := ["finance"; "sports"]]> h;
     singleton := {| cache := {[ "news:finance,sports" := scenarioEntry ]};
                     ttl := 300000 |} |}.

End Run.
End TwoTopics.

(** * The callers: [src/controllers/newsController.js] *)

(** More built-ins, used by the controllers. *)
Module JsText.

(** The white space and line terminators [trim] removes, among the
    code units below 256: tab, line feed, vertical tab, form feed,
    carriage return, space and the no-break space U+00A0. *)
Definition isWhiteSpace (c : ascii) : bool :=
  let n := N_of_ascii c in
  (((9 <=? n) && (n <=? 13)) || (n =? 32) || (n =? 160))%N.

Fixpoint trimStart (s : string) : string :=
  match s with
  | EmptyString => EmptyString
  | String c r => if isWhiteSpace c then trimStart r else s
  end.

Fixpoint trimEnd (s : string) : string :=
  match s with
  | EmptyString => EmptyString
  | String c r =>
      match trimEnd r with
      | EmptyString => if isWhiteSpace c then EmptyString
                       else String c EmptyString
      | r' => String c r'
      end
  end.

(** [s.trim()] *)
Definition trim (s : string) : string := trimEnd (trimStart s).

(** [toLowerCase], on strings of code units below 256: the letters
    A-Z and the capitals of Latin-1 (U+00C0 to U+00DE but the
    multiplication sign U+00D7) go to their small letters, 32 above;
    every other code unit is left as it is. *)
Definition lower (c : ascii) : ascii :=
  let n := N_of_ascii c in
  if (((65 <=? n) && (n <=? 90))
      || ((192 <=? n) && (n <=? 222) && negb (n =? 215)))%N
  then ascii_of_N (n + 32) else c.

Fixpoint toLowerCase (s : string) : string :=
  match s with
  | EmptyString => EmptyString
  | String c r => String (lower c) (toLowerCase r)
  end.

End JsText.

(** The [metadata] object of a response.  A key a handler does not
    write is [None]; [meta_preferences] is the array as [res.json]
    serializes it, that is as it stands when the response is sent. *)
Record Metadata := {
  meta_count : nat;
  meta_query : option string;
  meta_preferences : option (list string);
  meta_topic : option string;
  meta_cached : bool;
  meta_source : string
}.

(** The value of [req.query.q]: the key is absent, or it came once and
    is a string, or it is not a string (the query parser makes an array
    of [?q=a&q=b] and an object of [?q[k]=v]). *)
Inductive QueryValue :=
  | QAbsent
  | QText (s : string)
  | QOther.

(** What [res.status(..).json(..)] sends. *)
Inductive Body :=
  | NewsBody (news : list Article) (metadata : Metadata)
  | ErrorBody (error message : string).

Record HttpResponse := { status : nat; body : Body }.

Module NewsController.
Section Handlers.

Variable clock : nat → Z.
Variable random : nat → Z.
Variable respond : nat → Request → Response.
Variable cfg : Config.

(** [req.user.preferences || []]: the user's own array, or a new empty
    one when the user has none. *)
Definition orEmpty (preferences : option loc) : M loc :=
  match preferences with
  | Some p => ret p
  | None => alloc []
  end.

(** [getNews(req, res)]; the argument is [req.user.preferences].  The
    service of this development does not throw on arrays of strings, so
    the [catch] block of this handler has nothing to catch. *)
Definition getNews (preferences : option loc) : M HttpResponse :=
  let! userPreferences := orEmpty preferences in
  let! result :=
    NewsService.getNews clock random respond cfg userPreferences in
  let! sentPreferences := deref userPreferences in
  ret {| status := 200;
         body := NewsBody (news result)
                   {| meta_count := length (news result);
                      meta_query := None;
                      meta_preferences := Some sentPreferences;
                      meta_topic := None;
                      meta_cached := cached result;
                      meta_source := source result |} |}.

(** [searchNews(req, res)]; the arguments are [req.query.q] and
    [req.user.preferences].  An array or an object is truthy and has no
    [trim]: [query.trim()] throws and the [catch] block answers 500. *)
Definition searchNews (q : QueryValue) (preferences : option loc)
  : M HttpResponse :=
  match q with
  | QAbsent | QText EmptyString =>
      ret {| status := 400;
             body := ErrorBody "Invalid request" "Search query is required" |}
  | QOther =>
      ret {| status := 500;
             body := ErrorBody "Search failed"
                       "An error occurred while searching for news" |}
  | QText query =>
      if (String.length (JsText.trim query) =? 0)%nat then
        ret {| status := 400;
               body := ErrorBody "Invalid request"
                         "Search query is required" |}
      else
        let! userPreferences := orEmpty preferences in
        let! result :=
          NewsService.searchNews clock random respond cfg
            (JsText.trim query) (Some userPreferences) in
        let! sentPreferences := deref userPreferences in
        ret {| status := 200;
               body := NewsBody (news result)
                         {| meta_count := length (news result);
                            meta_query := Some (JsText.trim query);
                            meta_preferences := Some sentPreferences;
                            meta_topic := None;
                            meta_cached := cached result;
                            meta_source := source result |} |}
  end.

(** [getNewsByTopic(req, res)]; the argument is [req.params.topic],
    which the router fills with a string. *)
Definition getNewsByTopic (topic : option string) : M HttpResponse :=
  match topic with
  | None | Some EmptyString =>
      ret {| status := 400;
             body := ErrorBody "Invalid request" "Topic is required" |}
  | Some t =>
      if (String.length (JsText.trim t) =? 0)%nat then
        ret {| status := 400;
               body := ErrorBody "Invalid request" "Topic is required" |}
      else
        let! terms := alloc [JsText.toLowerCase (JsText.trim t)] in
        let! result := NewsService.getNews clock random respond cfg terms in
        ret {| status := 200;
               body := NewsBody (news result)
                         {| meta_count := length (news result);
                            meta_query := None;
                            meta_preferences := None;
                            meta_topic :=
                              Some (JsText.toLowerCase (JsText.trim t));
                            meta_cached := cached result;
                            meta_source := source result |} |}
  end.

End Handlers.
End NewsController.

(** ** Vocabulary of the further properties *)

(** Every entry of the cache holds at least one article. *)
Definition stocked (w : World) : Prop :=
  ∀ key item, cache (singleton w) !! key = Some item → data item ≠ [].

(** The time to live [set] adds for a custom value. *)
Definition effectiveTtl (c : CacheObj) (customTtl : option Z) : Z :=
  match customTtl with
  | Some t => if (t =? 0)%Z then ttl c else t
  | None => ttl c
  end.

(** Every field of an article is present. *)
Definition complete (a : Article) : Prop :=
  is_Some (title a) ∧ is_Some (description a) ∧ is_Some (content a)
  ∧ is_Some (url a) ∧ is_Some (image a) ∧ is_Some (publishedAt a)
  ∧ is_Some (name (src a)) ∧ is_Some (src_url (src a)).

(** An article of the response has the fields of the provider's
    article, the image taken by [img]. *)
Definition mirrors (img : NativeArticle → option string)
    (n : NativeArticle) (a : Article) : Prop :=
  title a = n_title n ∧ description a = n_description n
  ∧ content a = n_content n ∧ url a = n_url n ∧ image a = img n
  ∧ publishedAt a = n_publishedAt n
  ∧ name (src a) = (n_source n) ≫= s_name.


(** How the article pushed for a term is titled, by the first code unit
    of the term: a small letter is replaced by its capital, the sharp s
    by "SS", and any other code unit that has its capital among the code
    units below 256 is kept. *)
Definition titledAfter (term : string) (a : Article) : Prop :=
  match term with
  | EmptyString => title a = Some " news update"
  | String c r =>
      let n := N_of_ascii c in
      (((97 ≤ n ≤ 122) ∨ (224 ≤ n ≤ 254 ∧ n ≠ 247))%N →
       title a = Some (String (ascii_of_N (n - 32)) (r +:+ " news update")))
      ∧ (n = 223%N → title a = Some ("SS" +:+ r +:+ " news update"))
      ∧ ((n < 97 ∨ 122 < n < 181 ∨ 181 < n < 223 ∨ n = 247)%N →
         title a = Some (term +:+ " news update"))
  end.



(** The array [[]] against the array [["general"]]. *)
Definition emptyVsGeneral (a1 a2 : list string) : Prop :=
  a1 = [] ∧ a2 = ["general"].

(** * Properties *)

(** ** Generic facts about the state-passing computations *)

Lemma bind_run {A B} (m : M A) (k : A → M B) (w : World) :
  bind m k w = k (m w).1 (m w).2.
Proof. unfold bind. by destruct (m w). Qed.

(** ** The order of strings and [sort] *)

Lemma sort_sorted (a : list string) : Sorted String.le (Js.sort a).
Proof. apply Sorted_merge_sort; apply _. Qed.

Lemma sort_perm (a : list string) : Js.sort a ≡ₚ a.
Proof. apply merge_sort_Permutation. Qed.

Lemma sort_order_independent (a1 a2 : list string) :
  a1 ≡ₚ a2 → Js.sort a1 = Js.sort a2.
Proof.
  intros Hp. apply (Sorted_unique String.le); try apply sort_sorted.
  by rewrite !sort_perm.
Qed.

Lemma sort_nonEmpty (a : list string) :
  Js.nonEmpty (Js.sort a) = Js.nonEmpty a.
Proof.
  pose proof (sort_perm a) as Hp.
  destruct a as [|x a], (Js.sort _) as [|y s]; try reflexivity.
  - by apply Permutation_nil_r in Hp.
  - symmetry in Hp. by apply Permutation_nil_r in Hp.
Qed.

Lemma sort_length (a : list string) : length (Js.sort a) = length a.
Proof. by rewrite sort_perm. Qed.

(** ** The cache *)

Lemma generateKey_run (w : World) (p : loc) (a : list string) :
  heap w !! p = Some a →
  Cache.generateKey (Some p) w = (keyOf a, withArray p (Js.sort a) w).
Proof.
  intros Hp. unfold Cache.generateKey, keyOf, withArray.
  rewrite bind_run. unfold deref at 1 2. simpl. rewrite Hp. simpl.
  destruct a as [|x a]; simpl; [|reflexivity].
  unfold ret. f_equal. destruct w; simpl in *. f_equal.
  symmetry. by apply insert_id.
Qed.

Lemma keyOf_order_independent (a1 a2 : list string) :
  a1 ≡ₚ a2 → keyOf a1 = keyOf a2.
Proof.
  intros Hp. unfold keyOf.
  rewrite (sort_order_independent _ _ Hp).
  rewrite <-(sort_nonEmpty a1), <-(sort_nonEmpty a2).
  by rewrite (sort_order_independent _ _ Hp).
Qed.

(** C3: [generateKey] gives the same key for two arrays holding the same
    strings in different orders, and the fixed key "news:general" for an
    empty array and for an absent argument. *)
Theorem generateKey_order_independent
    (w1 w2 : World) (p1 p2 : loc) (a1 a2 : list string) :
  heap w1 !! p1 = Some a1 →
  heap w2 !! p2 = Some a2 →
  a1 ≡ₚ a2 →
  (Cache.generateKey (Some p1) w1).1 = (Cache.generateKey (Some p2) w2).1
  ∧ (∀ w p, heap w !! p = Some [] →
       (Cache.generateKey (Some p) w).1 = "news:general")
  ∧ (∀ w, (Cache.generateKey None w).1 = "news:general").
Proof.
  intros H1 H2 Hp. split; [|split].
  - rewrite (generateKey_run _ _ _ H1), (generateKey_run _ _ _ H2). simpl.
    by apply keyOf_order_independent.
  - intros w p Hw. by rewrite (generateKey_run _ _ _ Hw).
  - reflexivity.
Qed.

Lemma generateKey_order_independent_witness :
  (Cache.generateKey (Some 1%positive)
     (boot (config None None) {[ 1%positive := ["b"; "a"] ]})).1
  = (Cache.generateKey (Some 2%positive)
       (boot (config None None) {[ 2%positive := ["a"; "b"] ]})).1.
Proof.
  apply (generateKey_order_independent
           (boot (config None None) {[ 1%positive := ["b"; "a"] ]})
           (boot (config None None) {[ 2%positive := ["a"; "b"] ]})
           1%positive 2%positive ["b"; "a"] ["a"; "b"]).
  - reflexivity.
  - reflexivity.
  - apply perm_swap.
Defined.

(** C7 (the code does otherwise): [generateKey] sorts the array it is
    given in place.  Called on the array ["b"; "a"] it returns the key
    and leaves the caller's array as ["a"; "b"]; the cache is left as it
    was. *)
Theorem generateKey_reorders_argument :
  let w := boot (config None None) {[ 1%positive := ["b"; "a"] ]} in
  let '(key, w') := Cache.generateKey (Some 1%positive) w in
  key = "news:a,b"
  ∧ heap w !! 1%positive = Some ["b"; "a"]
  ∧ heap w' !! 1%positive = Some ["a"; "b"]
  ∧ singleton w' = singleton w.
Proof. vm_compute. auto. Qed.

(** The general form: after the call the array holds its elements in
    sorted order, whatever order the caller had them in. *)
Lemma generateKey_effect (w : World) (p : loc) (a : list string) :
  heap w !! p = Some a →
  heap (Cache.generateKey (Some p) w).2 !! p = Some (Js.sort a)
  ∧ outside (Cache.generateKey (Some p) w).2 = outside w.
Proof.
  intros Hp. rewrite (generateKey_run _ _ _ Hp). simpl. split; [|done].
  apply lookup_insert_eq.
Qed.

Section CacheFacts.

Variable clock : nat → Z.

Lemma get_absent (w : World) (key : string) :
  cache (singleton w) !! key = None →
  Cache.get clock key w = (None, w).
Proof. intros H. unfold Cache.get, bind, this. by rewrite H. Qed.

Lemma get_expired (w : World) (key : string) (item : CacheEntry) :
  cache (singleton w) !! key = Some item →
  (expiresAt item < clock (ticks w))%Z →
  Cache.get clock key w
  = (None, withMap (base.delete key (cache (singleton w))) (tick w)).
Proof.
  intros H Hlt. unfold Cache.get, bind, this. rewrite H. simpl.
  by apply Z.ltb_lt in Hlt as ->.
Qed.

Lemma get_live (w : World) (key : string) (item : CacheEntry) :
  cache (singleton w) !! key = Some item →
  (clock (ticks w) ≤ expiresAt item)%Z →
  Cache.get clock key w = (Some (data item), tick w).
Proof.
  intros H Hle. unfold Cache.get, bind, this. rewrite H. simpl.
  by apply Z.ltb_ge in Hle as ->.
Qed.

(** A lookup never adds an entry. *)
Lemma get_keeps_absent (w : World) (key key' : string) :
  cache (singleton w) !! key = None →
  cache (singleton (Cache.get clock key' w).2) !! key = None.
Proof.
  intros H. unfold Cache.get, bind, this.
  destruct (cache (singleton w) !! key') as [item|]; [|done]. simpl.
  destruct (expiresAt item <? clock (ticks w))%Z; simpl; [|done].
  rewrite lookup_delete. by case_decide.
Qed.

(** What a lookup returns is the data of an entry that the reading of
    the clock has not passed. *)
Lemma get_some (w : World) (key : string) (d : list Article) :
  (Cache.get clock key w).1 = Some d →
  ∃ item, cache (singleton w) !! key = Some item
          ∧ data item = d ∧ (clock (ticks w) ≤ expiresAt item)%Z.
Proof.
  unfold Cache.get, bind, this.
  destruct (cache (singleton w) !! key) as [item|]; [|done]. simpl.
  destruct (expiresAt item <? clock (ticks w))%Z eqn:E; simpl; [done|].
  intros [= <-]. exists item. by apply Z.ltb_ge in E.
Qed.

Lemma gets_after_eviction (keys : list string) (key : string) :
  ∀ (w : World) (i : nat),
    cache (singleton w) !! key = None →
    keys !! i = Some key →
    (collect (Cache.get clock) keys w).1 !! i = Some None.
Proof.
  induction keys as [|k keys IH]; intros w i Hw Hi; [done|].
  simpl. rewrite !bind_run. simpl.
  destruct i as [|i]; simpl in *.
  - injection Hi as ->. by rewrite (get_absent _ _ Hw).
  - apply IH; [|done]. by apply get_keeps_absent.
Qed.

(** C5: a lookup of a key whose entry the clock has passed returns
    nothing and removes the entry; the lookup repeated at once returns
    nothing again and changes nothing; and in every later run of
    lookups each lookup of that key returns nothing. *)
Theorem get_expired_evicts (w : World) (key : string) (item : CacheEntry) :
  cache (singleton w) !! key = Some item →
  (expiresAt item < clock (ticks w))%Z →
  let w1 := (Cache.get clock key w).2 in
  (Cache.get clock key w).1 = None
  ∧ cache (singleton w1) !! key = None
  ∧ Cache.get clock key w1 = (None, w1)
  ∧ ∀ (keys : list string) (i : nat),
      keys !! i = Some key →
      (collect (Cache.get clock) keys w1).1 !! i = Some None.
Proof.
  intros H Hlt w1.
  assert (Hgone : cache (singleton w1) !! key = None).
  { unfold w1. rewrite (get_expired _ _ _ H Hlt). simpl.
    apply lookup_delete_eq. }
  repeat split.
  - by rewrite (get_expired _ _ _ H Hlt).
  - done.
  - by apply get_absent.
  - intros keys i Hi. by apply (gets_after_eviction keys key).
Qed.

Lemma set_run (w : World) (key : string) (d : list Article)
    (customTtl : option Z) :
  Cache.set clock key d customTtl w
  = (tt, withMap
           (<[key := {| data := d;
                        expiresAt :=
                          (clock (ticks w) +
                           match customTtl with
                           | Some t => if (t =? 0)%Z then ttl (singleton w) else t
                           | None => ttl (singleton w)
                           end)%Z;
                        cachedAt := Js.toISOString (clock (S (ticks w))) |}]>
              (cache (singleton w)))
           (tick (tick w))).
Proof. reflexivity. Qed.

(** C10: [set(key, data, 0)] stores an entry that expires the
    instance's own time to live after the reading of the clock, and a
    lookup within that time is served; a custom value other than zero
    is the one that is added; the singleton's time to live is the
    configured five minutes. *)
Theorem set_zero_ttl_is_default (w : World) (key : string)
    (d : list Article) :
  let w' := (Cache.set clock key d (Some 0%Z) w).2 in
  (∃ e, cache (singleton w') !! key = Some e
        ∧ data e = d
        ∧ expiresAt e = (clock (ticks w) + ttl (singleton w))%Z)
  ∧ ((clock (ticks w') ≤ clock (ticks w) + ttl (singleton w))%Z →
     (Cache.get clock key w').1 = Some d)
  ∧ (∀ t : Z, t ≠ 0%Z →
       ∃ e, cache (singleton (Cache.set clock key d (Some t) w).2) !! key
            = Some e
            ∧ expiresAt e = (clock (ticks w) + t)%Z)
  ∧ (∀ k1 k2 h, ttl (singleton (boot (config k1 k2) h)) = 300000%Z).
Proof.
  intros w'. unfold w'. rewrite set_run. simpl. repeat split.
  - eexists. split; [apply lookup_insert_eq|]. done.
  - intros Hle.
    erewrite get_live; [ | simpl; apply lookup_insert_eq | ]; done.
  - intros t Ht. eexists.
    split; [apply lookup_insert_eq|]. simpl.
    by destruct (Z.eqb_spec t 0).
Qed.

End CacheFacts.

Lemma get_expired_evicts_witness :
  let clock := λ i : nat, (1000 + Z.of_nat i)%Z in
  let w := withMap {[ "news:tech" := {| data := []; expiresAt := 500;
                                         cachedAt := "" |} ]}
             (boot (config None None) ∅) in
  (Cache.get clock "news:tech" w).1 = None.
Proof.
  intros clock w.
  apply (get_expired_evicts clock w "news:tech"
           {| data := []; expiresAt := 500; cachedAt := "" |}).
  - reflexivity.
  - reflexivity.
Defined.

Lemma set_zero_ttl_is_default_witness :
  let clock := λ i : nat, (1000 + Z.of_nat i)%Z in
  let w := boot (config None None) ∅ in
  ∃ e, cache (singleton (Cache.set clock "k" [] (Some 60000%Z) w).2) !! "k"
       = Some e
       ∧ expiresAt e = (clock (ticks w) + 60000)%Z.
Proof.
  intros clock w.
  apply (set_zero_ttl_is_default clock w "k" []). discriminate.
Defined.

(** ** The retrieval pipeline *)

Section PipelineFacts.

Variable clock : nat → Z.
Variable random : nat → Z.
Variable respond : nat → Request → Response.
Variable cfg : Config.

Abbreviation fetchFromGNews := (NewsService.fetchFromGNews respond cfg).
Abbreviation fetchFromNewsAPI := (NewsService.fetchFromNewsAPI respond cfg).
Abbreviation generateMockNews := (NewsService.generateMockNews clock random).
Abbreviation getNews := (NewsService.getNews clock random respond cfg).
Abbreviation searchNews := (NewsService.searchNews clock random respond cfg).
Abbreviation lookup := (Stage.lookup clock).
Abbreviation settle := (Stage.settle clock).
Abbreviation gnewsRequest := (Stage.gnewsRequest cfg).
Abbreviation newsApiRequest := (Stage.newsApiRequest cfg).

Lemma get_frame (key : string) (w : World) :
  let w' := (Cache.get clock key w).2 in
  heap w' = heap w ∧ requests w' = requests w ∧ draws w' = draws w
  ∧ ttl (singleton w') = ttl (singleton w).
Proof.
  unfold Cache.get, bind, this.
  destruct (cache (singleton w) !! key) as [item|]; [|done]. simpl.
  by destruct (expiresAt item <? clock (ticks w))%Z.
Qed.

Lemma lookup_frame (p : loc) (a : list string) (w : World) :
  heap w !! p = Some a →
  let w' := (lookup p w).2 in
  heap w' = <[p := Js.sort a]> (heap w) ∧ requests w' = requests w
  ∧ draws w' = draws w ∧ ttl (singleton w') = ttl (singleton w).
Proof.
  intros Hp. unfold lookup. rewrite bind_run, (generateKey_run _ _ _ Hp).
  simpl.
  by destruct (get_frame (keyOf a) (withArray p (Js.sort a) w))
    as (-> & -> & -> & ->).
Qed.

Lemma fetchFromGNews_declines (p : loc) (w : World) :
  unconfigured (gnewsApiKey cfg) →
  fetchFromGNews p w = (Returned None, w).
Proof.
  unfold NewsService.fetchFromGNews. by intros [-> | ->].
Qed.

Lemma fetchFromGNews_sends (p : loc) (w : World) (k : string)
    (a : list string) :
  gnewsApiKey cfg = Some k → k ≠ "" → heap w !! p = Some a →
  fetchFromGNews p w
  = (digest NewsService.fromGNews
       (respond (length (requests w)) (gnewsRequest k a)),
     sent (gnewsRequest k a) w).
Proof.
  intros Hk Hne Hp. unfold NewsService.fetchFromGNews. rewrite Hk.
  destruct k as [|c k]; [done|].
  unfold bind, deref, axiosGet. rewrite Hp. simpl.
  by destruct (respond _ _).
Qed.

Lemma fetchFromNewsAPI_declines (p : loc) (w : World) :
  unconfigured (newsApiKey cfg) →
  fetchFromNewsAPI p w = (Returned None, w).
Proof.
  unfold NewsService.fetchFromNewsAPI. by intros [-> | ->].
Qed.

Lemma fetchFromNewsAPI_sends (p : loc) (w : World) (k : string)
    (a : list string) :
  newsApiKey cfg = Some k → k ≠ "" → heap w !! p = Some a →
  fetchFromNewsAPI p w
  = (digest NewsService.fromNewsAPI
       (respond (length (requests w)) (newsApiRequest k a)),
     sent (newsApiRequest k a) w).
Proof.
  intros Hk Hne Hp. unfold NewsService.fetchFromNewsAPI. rewrite Hk.
  destruct k as [|c k]; [done|].
  unfold bind, deref, axiosGet. rewrite Hp. simpl.
  by destruct (respond _ _).
Qed.

(** *** Synthesis *)

Lemma collect_length {A B} (f : A → M B) (l : list A) (w : World) :
  length (collect f l w).1 = length l.
Proof.
  revert w. induction l as [|x l IH]; intros w; [done|].
  simpl. rewrite !bind_run. simpl. by rewrite IH.
Qed.

Lemma generateMockNews_length (p : loc) (a : list string) (w : World) :
  heap w !! p = Some a →
  length (generateMockNews p w).1 = 3 + (length a - 1).
Proof.
  intros Hp. unfold NewsService.generateMockNews.
  rewrite bind_run. unfold deref at 1 2. simpl. rewrite Hp. simpl.
  destruct a as [|x [|y a]]; try reflexivity.
  repeat (rewrite bind_run; simpl).
  by rewrite collect_length.
Qed.

(** *** [getNews] past the lookup *)

(** [getNews] when the lookup misses, by the outcome of the fetches. *)
Lemma getNews_miss (p : loc) (w : World) :
  (lookup p w).1 = None →
  getNews p w
  = let key := (Cache.generateKey (Some p) w).1 in
    let g := fetchFromGNews p (lookup p w).2 in
    if fruitful g.1 then settle key (payload g.1) "gnews" g.2
    else
      let n := fetchFromNewsAPI p g.2 in
      if fruitful n.1 then settle key (payload n.1) "newsapi" n.2
      else
        let m := generateMockNews p n.2 in
        settle key m.1 "mock" m.2.
Proof.
  intros Hmiss. unfold NewsService.getNews, lookup in *.
  rewrite bind_run in Hmiss. rewrite !bind_run, Hmiss, bind_run.
  cbv zeta.
  set (w1 := (Cache.get clock _ _).2).
  destruct (fetchFromGNews p w1) as [[[[|x l]|]|] w2]; simpl;
    try reflexivity;
    rewrite !bind_run;
    destruct (fetchFromNewsAPI p w2) as [[[[|y l']|]|] w3]; simpl;
    try reflexivity; by rewrite !bind_run.
Qed.

(** [getNews] when the lookup hits. *)
Lemma getNews_hit (p : loc) (w : World) (hit : list Article) :
  (lookup p w).1 = Some hit →
  getNews p w
  = ({| news := hit; cached := true; source := "cache" |}, (lookup p w).2).
Proof.
  intros Hhit. unfold NewsService.getNews, lookup in *.
  rewrite bind_run in Hhit. by rewrite !bind_run, Hhit.
Qed.

Lemma settle_run (key : string) (l : list Article) (s : string)
    (w : World) :
  settle key l s w
  = ({| news := l; cached := false; source := s |},
     (Cache.set clock key l None w).2).
Proof. reflexivity. Qed.

(** *** What the stages leave untouched *)

Lemma fetchFromGNews_frame (p : loc) (w : World) :
  let w' := (fetchFromGNews p w).2 in
  singleton w' = singleton w ∧ heap w' = heap w
  ∧ ticks w' = ticks w ∧ draws w' = draws w.
Proof.
  unfold NewsService.fetchFromGNews.
  destruct (gnewsApiKey cfg) as [[|c k]|]; try done.
  unfold bind, deref, axiosGet. simpl. by destruct (respond _ _).
Qed.

Lemma fetchFromNewsAPI_frame (p : loc) (w : World) :
  let w' := (fetchFromNewsAPI p w).2 in
  singleton w' = singleton w ∧ heap w' = heap w
  ∧ ticks w' = ticks w ∧ draws w' = draws w.
Proof.
  unfold NewsService.fetchFromNewsAPI.
  destruct (newsApiKey cfg) as [[|c k]|]; try done.
  unfold bind, deref, axiosGet. simpl. by destruct (respond _ _).
Qed.

Lemma topics_frame (l : list string) (w : World) :
  let w' := (collect (NewsService.topicArticle clock random) l w).2 in
  singleton w' = singleton w ∧ heap w' = heap w
  ∧ requests w' = requests w.
Proof.
  revert w. induction l as [|x l IH]; intros w; [done|].
  simpl. rewrite !bind_run. simpl.
  match goal with
  | |- context [collect _ l ?w0] => by destruct (IH w0) as (-> & -> & ->)
  end.
Qed.

Lemma generateMockNews_frame (p : loc) (w : World) :
  let w' := (generateMockNews p w).2 in
  singleton w' = singleton w ∧ heap w' = heap w
  ∧ requests w' = requests w.
Proof.
  unfold NewsService.generateMockNews.
  repeat (rewrite bind_run; simpl).
  destruct (1 <? length _); [|done].
  rewrite bind_run. simpl.
  match goal with
  | |- context [collect _ ?l ?w0] =>
      by destruct (topics_frame l w0) as (-> & -> & ->)
  end.
Qed.

Lemma fruitful_payload (c : Completion (option (list Article))) :
  fruitful c = true ↔ ∃ x l, c = Returned (Some (x :: l)).
Proof.
  split.
  - destruct c as [[[|x l]|]|]; try done. eauto.
  - by intros (x & l & ->).
Qed.

(** C1: when the lookup misses, [getNews] takes the first fruitful
    source in the order GNews, NewsAPI, synthesis.  If GNews is
    configured and its request is answered with articles that map to
    a non-empty array, the result is that array with source "gnews",
    whatever the configuration and the answers of NewsAPI, which is
    sent nothing.  A fetch is fruitful exactly when it returns a
    non-empty array: a declining provider, an empty array and a
    failure all pass the turn on. *)
Theorem fallback_order (p : loc) (a : list string) (w : World) :
  heap w !! p = Some a →
  (lookup p w).1 = None →
  let r := getNews p w in
  let g := fetchFromGNews p (lookup p w).2 in
  let n := fetchFromNewsAPI p g.2 in
  let m := generateMockNews p n.2 in
  (∀ k l x xs,
      gnewsApiKey cfg = Some k → k ≠ "" →
      respond (length (requests w)) (gnewsRequest k (Js.sort a))
      = Articles l →
      mapM NewsService.fromGNews l = Some (x :: xs) →
      r.1 = {| news := x :: xs; cached := false; source := "gnews" |}
      ∧ requests r.2 = gnewsRequest k (Js.sort a) :: requests w)
  ∧ r.1 = (if fruitful g.1 then
             {| news := payload g.1; cached := false; source := "gnews" |}
           else if fruitful n.1 then
             {| news := payload n.1; cached := false; source := "newsapi" |}
           else
             {| news := m.1; cached := false; source := "mock" |})
  ∧ (fruitful g.1 = true → requests r.2 = requests g.2)
  ∧ (∀ c, fruitful c = true ↔ ∃ x l, c = Returned (Some (x :: l)))
  ∧ fruitful (Returned None) = false
  ∧ fruitful (Returned (Some [])) = false
  ∧ fruitful Threw = false.
Proof.
  intros Hp Hmiss r g n m.
  assert (Hr : r = getNews p w) by done.
  rewrite (getNews_miss _ _ Hmiss) in Hr. cbv zeta in Hr.
  fold g n m in Hr.
  split; [|split; [|split; [|split; [exact fruitful_payload|done]]]].
  - intros k l x xs Hk Hne Hresp Hmap.
    destruct (lookup_frame p a w Hp) as (Hheap & Hreq & _ & _).
    assert (Hg : g = (Returned (Some (x :: xs)),
                      sent (gnewsRequest k (Js.sort a)) (lookup p w).2)).
    { unfold g.
      rewrite (fetchFromGNews_sends p _ k (Js.sort a) Hk Hne).
      - rewrite Hreq, Hresp. simpl.
        unfold NewsService.mapArticles. by rewrite Hmap.
      - rewrite Hheap. apply lookup_insert_eq. }
    rewrite Hg in Hr. simpl in Hr. rewrite settle_run in Hr.
    rewrite Hr. simpl. by rewrite Hreq.
  - rewrite Hr. destruct (fruitful g.1); [by rewrite settle_run|].
    destruct (fruitful n.1); by rewrite settle_run.
  - intros Hg. rewrite Hr, Hg. by rewrite settle_run.
Qed.

(** C2: when the lookup misses and neither provider is configured, or
    each fetch ends without a non-empty array (the provider declines,
    fails or returns an empty array), [getNews] returns synthesized
    articles with source "mock": 3 + max(0, n - 1) of them for an
    array of n terms, so never an empty array. *)
Theorem fallback_exhausted (p : loc) (a : list string) (w : World) :
  heap w !! p = Some a →
  (lookup p w).1 = None →
  let g := fetchFromGNews p (lookup p w).2 in
  let n := fetchFromNewsAPI p g.2 in
  unconfigured (gnewsApiKey cfg) ∨ fruitful g.1 = false →
  unconfigured (newsApiKey cfg) ∨ fruitful n.1 = false →
  let r := (getNews p w).1 in
  source r = "mock"
  ∧ cached r = false
  ∧ Z.of_nat (length (news r))
    = (3 + Z.max 0 (Z.of_nat (length a) - 1))%Z
  ∧ news r ≠ [].
Proof.
  intros Hp Hmiss g n Hg Hn r.
  assert (Hg' : fruitful g.1 = false).
  { destruct Hg as [Hg|Hg]; [|done].
    unfold g. by rewrite (fetchFromGNews_declines _ _ Hg). }
  assert (Hn' : fruitful n.1 = false).
  { destruct Hn as [Hn|Hn]; [|done].
    unfold n. by rewrite (fetchFromNewsAPI_declines _ _ Hn). }
  unfold r. rewrite (getNews_miss _ _ Hmiss). cbv zeta.
  fold g. rewrite Hg'. fold n. rewrite Hn'. rewrite settle_run. simpl.
  assert (Hlen : length (generateMockNews p n.2).1
                 = 3 + (length a - 1)).
  { rewrite <-(sort_length a). apply generateMockNews_length.
    unfold n, g.
    destruct (fetchFromNewsAPI_frame p (fetchFromGNews p (lookup p w).2).2)
      as (_ & -> & _).
    destruct (fetchFromGNews_frame p (lookup p w).2) as (_ & -> & _).
    destruct (lookup_frame p a w Hp) as (-> & _).
    apply lookup_insert_eq. }
  repeat split.
  - rewrite Hlen. lia.
  - intros Hnil. rewrite Hnil in Hlen. simpl in Hlen. lia.
Qed.

(** *** Write-through *)

Lemma cached_false_miss (p : loc) (w : World) :
  cached (getNews p w).1 = false → (lookup p w).1 = None.
Proof.
  destruct ((lookup p w).1) as [hit|] eqn:E; [|done].
  by rewrite (getNews_hit _ _ _ E).
Qed.

(** A call that misses ends with [set] under the key of its array. *)
Lemma getNews_stores (p : loc) (a : list string) (w : World) :
  heap w !! p = Some a →
  (lookup p w).1 = None →
  ∃ w', (getNews p w).2
        = (Cache.set clock (keyOf a) (news (getNews p w).1) None w').2
        ∧ ttl (singleton w') = ttl (singleton w)
        ∧ heap w' = <[p := Js.sort a]> (heap w).
Proof.
  intros Hp Hmiss. rewrite (getNews_miss _ _ Hmiss). cbv zeta.
  rewrite (generateKey_run _ _ _ Hp). simpl.
  destruct (lookup_frame p a w Hp) as (Hheap & _ & _ & Httl).
  set (g := fetchFromGNews p (lookup p w).2).
  set (n := fetchFromNewsAPI p g.2).
  set (m := generateMockNews p n.2).
  destruct (fetchFromGNews_frame p (lookup p w).2) as (Hg & Hg' & _).
  destruct (fetchFromNewsAPI_frame p g.2) as (Hn & Hn' & _).
  destruct (generateMockNews_frame p n.2) as (Hm & Hm' & _).
  fold g in Hg, Hg'. fold n in Hn, Hn'. fold m in Hm, Hm'.
  destruct (fruitful g.1); [|destruct (fruitful n.1)];
    rewrite settle_run; simpl; eexists; (split; [reflexivity|]);
    split; congruence.
Qed.

(** A call that finds an entry the clock has not passed returns it. *)
Lemma getNews_served (p : loc) (a : list string) (w : World)
    (e : CacheEntry) :
  heap w !! p = Some a →
  cache (singleton w) !! keyOf a = Some e →
  (clock (ticks w) ≤ expiresAt e)%Z →
  getNews p w
  = ({| news := data e; cached := true; source := "cache" |},
     tick (withArray p (Js.sort a) w)).
Proof.
  intros Hp He Hle.
  assert (Hl : lookup p w
               = (Some (data e), tick (withArray p (Js.sort a) w))).
  { unfold lookup. rewrite bind_run, (generateKey_run _ _ _ Hp). simpl.
    by apply get_live. }
  rewrite (getNews_hit p w (data e)); by rewrite Hl.
Qed.

(** C4: a call of [getNews] that misses stores what it returns under
    the key of its array, with the instance's time to live; a call
    that follows with an array of the same terms, in any order, while
    the clock has not passed the stored expiry returns the same
    articles with [cached] true and source "cache", sends no request
    and leaves the cache as it is. *)
Theorem cache_write_through (p : loc) (a : list string) (w : World) :
  heap w !! p = Some a →
  cached (getNews p w).1 = false →
  let r1 := (getNews p w).1 in
  let w1 := (getNews p w).2 in
  ∃ e, cache (singleton w1) !! (Cache.generateKey (Some p) w).1 = Some e
       ∧ data e = news r1
       ∧ expiresAt e = (clock (ticks w1 - 2) + ttl (singleton w))%Z
       ∧ ∀ (p' : loc) (a' : list string),
           heap w1 !! p' = Some a' →
           a' ≡ₚ a →
           (clock (ticks w1) ≤ expiresAt e)%Z →
           (getNews p' w1).1
           = {| news := news r1; cached := true; source := "cache" |}
           ∧ requests (getNews p' w1).2 = requests w1
           ∧ singleton (getNews p' w1).2 = singleton w1.
Proof.
  intros Hp Hc r1 w1. apply cached_false_miss in Hc as Hmiss.
  destruct (getNews_stores p a w Hp Hmiss) as (w' & Hw1 & Httl & _).
  fold w1 r1 in Hw1. rewrite set_run in Hw1. simpl in Hw1.
  rewrite (generateKey_run _ _ _ Hp). simpl.
  set (e := {| data := news r1;
               expiresAt := (clock (ticks w') + ttl (singleton w'))%Z;
               cachedAt := Js.toISOString (clock (S (ticks w'))) |}) in *.
  assert (He : cache (singleton w1) !! keyOf a = Some e).
  { rewrite Hw1. simpl. apply lookup_insert_eq. }
  exists e. split; [done|]. split; [done|]. split.
  { rewrite Hw1. simpl. rewrite Nat.sub_0_r. by rewrite Httl. }
  intros p' a' Hp' Hperm Hle.
  rewrite (getNews_served p' a' w1 e); [done|done| |exact Hle].
  by rewrite (keyOf_order_independent _ _ Hperm).
Qed.

(** *** Two runs on arrays of the same terms

    The rules of the simulation, then each stage of the pipeline run
    through [p1] against the same stage run through [p2]. *)
Section Simulation.

Variables p1 p2 : loc.

Abbreviation related := (Sim.related p1 p2).
Abbreviation sim := (Sim.sim p1 p2).

Lemma sim_ret {A} (rel : relation (list string)) (x : A) :
  sim rel rel (ret x) (ret x).
Proof. by intros w1 w2 H. Qed.

Lemma sim_bind {A B} (pre mid post : relation (list string))
    (m1 m2 : M A) (k1 k2 : A → M B) :
  sim pre mid m1 m2 →
  (∀ x, sim mid post (k1 x) (k2 x)) →
  sim pre post (bind m1 k1) (bind m2 k2).
Proof.
  intros Hm Hk w1 w2 H. rewrite !bind_run.
  destruct (Hm w1 w2 H) as [-> H']. by apply Hk.
Qed.

Lemma sim_heapless {A} (rel : relation (list string)) (m : M A) :
  heapless m → (∀ w, heap (m w).2 = heap w) → sim rel rel m m.
Proof.
  intros Hm Hh w1 w2 [Ho Hr].
  assert (E : w1 = withHeap (heap w1) w2).
  { destruct w1, w2. unfold outside, withHeap in *. by simplify_eq/=. }
  rewrite E, Hm. simpl. split; [done|]. split; [done|].
  unfold elements in *. simpl. rewrite E in Hr. simpl in Hr.
  by rewrite Hh.
Qed.

Lemma sim_now (rel : relation (list string)) :
  sim rel rel (now clock) (now clock).
Proof. by apply sim_heapless. Qed.

Lemma sim_randomOffset (rel : relation (list string)) :
  sim rel rel (randomOffset random) (randomOffset random).
Proof. by apply sim_heapless. Qed.

Lemma sim_axiosGet (rel : relation (list string)) (r : Request) :
  sim rel rel (axiosGet respond r) (axiosGet respond r).
Proof. by apply sim_heapless. Qed.

Lemma sim_this (rel : relation (list string)) : sim rel rel this this.
Proof. by apply sim_heapless. Qed.

Lemma sim_updateMap (rel : relation (list string))
    (f : gmap string CacheEntry → gmap string CacheEntry) :
  sim rel rel (updateMap f) (updateMap f).
Proof. by apply sim_heapless. Qed.

Lemma sim_deref : sim eq eq (deref p1) (deref p2).
Proof. intros w1 w2 [Ho Hr]. by split. Qed.

Ltac sim_leaf :=
  first
    [ apply sim_ret | apply sim_now | apply sim_randomOffset
    | apply sim_axiosGet | apply sim_this | apply sim_updateMap
    | apply sim_deref ].

(** The first computation of a sequence is closed when it is one
    of the primitives; the continuation is left as the goal. *)
Ltac sim_seq := eapply sim_bind; [ try sim_leaf | ].

Lemma sim_generateKey :
  sim (≡ₚ) eq (Cache.generateKey (Some p1)) (Cache.generateKey (Some p2)).
Proof.
  intros w1 w2 [Ho Hr]. unfold Cache.generateKey.
  rewrite !bind_run. unfold deref at 1 2 3 4. simpl.
  fold (elements p1 w1) (elements p2 w2).
  pose proof (sort_order_independent _ _ Hr) as Hs.
  pose proof (sort_nonEmpty (elements p1 w1)) as E1.
  pose proof (sort_nonEmpty (elements p2 w2)) as E2.
  rewrite Hs in E1. rewrite <-E1, E2.
  destruct (elements p2 w2) as [|y a2] eqn:Ea2; simpl.
  - apply Permutation_nil_r in Hr. split; [done|]. split; [done|].
    by rewrite Hr, Ea2.
  - rewrite ?bind_run. simpl. rewrite Hs. split; [done|].
    split; [done|]. unfold elements. simpl.
    by rewrite !lookup_insert_eq.
Qed.

Lemma sim_get (rel : relation (list string)) (key : string) :
  sim rel rel (Cache.get clock key) (Cache.get clock key).
Proof.
  unfold Cache.get. sim_seq. intros c.
  destruct (cache c !! key) as [item|]; [|sim_leaf].
  sim_seq. intros t.
  destruct (expiresAt item <? t)%Z; [|sim_leaf].
  sim_seq. intros _. sim_leaf.
Qed.

Lemma sim_set (rel : relation (list string)) (key : string)
    (d : list Article) (customTtl : option Z) :
  sim rel rel (Cache.set clock key d customTtl)
    (Cache.set clock key d customTtl).
Proof.
  unfold Cache.set. sim_seq. intros c. cbv zeta.
  sim_seq. intros t. sim_seq. intros t'. sim_leaf.
Qed.

Lemma sim_fetchFromGNews :
  sim eq eq (fetchFromGNews p1) (fetchFromGNews p2).
Proof.
  unfold NewsService.fetchFromGNews.
  destruct (gnewsApiKey cfg) as [[|c k]|]; try sim_leaf.
  sim_seq. intros a. cbv zeta. sim_seq. intros response.
  destruct response; sim_leaf.
Qed.

Lemma sim_fetchFromNewsAPI :
  sim eq eq (fetchFromNewsAPI p1) (fetchFromNewsAPI p2).
Proof.
  unfold NewsService.fetchFromNewsAPI.
  destruct (newsApiKey cfg) as [[|c k]|]; try sim_leaf.
  sim_seq. intros a. cbv zeta. sim_seq. intros response.
  destruct response; sim_leaf.
Qed.

Lemma sim_topics (rel : relation (list string)) (l : list string) :
  sim rel rel (collect (NewsService.topicArticle clock random) l)
    (collect (NewsService.topicArticle clock random) l).
Proof.
  induction l as [|t l IH]; simpl; [sim_leaf|].
  sim_seq.
  { unfold NewsService.topicArticle. sim_seq. intros d.
    sim_seq. intros r. sim_leaf. }
  intros y. sim_seq; [exact IH|]. intros ys. sim_leaf.
Qed.

Lemma sim_generateMockNews :
  sim eq eq (generateMockNews p1) (generateMockNews p2).
Proof.
  unfold NewsService.generateMockNews.
  sim_seq. intros a. cbv zeta.
  sim_seq. intros d1. sim_seq. intros d2. sim_seq. intros d3.
  destruct (1 <? length _); [|sim_leaf].
  sim_seq; [apply sim_topics|]. intros more. sim_leaf.
Qed.

Lemma sim_getNews : sim (≡ₚ) eq (getNews p1) (getNews p2).
Proof.
  unfold NewsService.getNews.
  sim_seq; [apply sim_generateKey|]. intros key.
  sim_seq; [apply sim_get|]. intros [hit|]; [sim_leaf|]. cbv zeta.
  sim_seq; [apply sim_fetchFromGNews|]. intros g.
  assert (Hlast : ∀ (news2 : option (list Article)) (source2 : string),
    sim eq eq
      (let! last0 := match news2 with
                     | Some (x :: r) => ret (x :: r, source2)
                     | _ => let! m := generateMockNews p1 in
                            ret (m, "mock")
                     end in
       let '(news3, source3) := last0 in
       run! Cache.set clock key news3 None in
       ret {| news := news3; cached := false; source := source3 |})
      (let! last0 := match news2 with
                     | Some (x :: r) => ret (x :: r, source2)
                     | _ => let! m := generateMockNews p2 in
                            ret (m, "mock")
                     end in
       let '(news3, source3) := last0 in
       run! Cache.set clock key news3 None in
       ret {| news := news3; cached := false; source := source3 |})).
  { intros news2 source2. sim_seq.
    - destruct news2 as [[|x r]|]; try sim_leaf;
        (sim_seq; [apply sim_generateMockNews|]; intros m; sim_leaf).
    - intros [news3 source3]. sim_seq; [apply sim_set|].
      intros _. sim_leaf. }
  destruct g as [[[|y l]|]|]; simpl;
    (eapply sim_bind;
     [ first [ sim_leaf
             | sim_seq; [apply sim_fetchFromNewsAPI|]; intros n; sim_leaf ]
     | intros [news2 source2]; apply Hlast ]).
Qed.

End Simulation.

(** C6: [searchNews(query, preferences)] returns what [getNews]
    returns on any array holding the preferences and the query, in
    whatever order, and leaves the clock, the log of requests and the
    cache in the same state: search is [getNews] on a new array with
    the query appended. *)
Theorem search_composition (query : string) (preferences : option loc)
    (w w' : World) (p' : loc) (a' : list string) :
  outside w' = outside w →
  heap w' !! p' = Some a' →
  a' ≡ₚ from_option (λ p, elements p w) [] preferences ++ [query] →
  (searchNews query preferences w).1 = (getNews p' w').1
  ∧ outside (searchNews query preferences w).2
    = outside (getNews p' w').2.
Proof.
  intros Ho Hp' Hperm. unfold NewsService.searchNews.
  rewrite bind_run.
  set (a := from_option (λ p, elements p w) [] preferences) in *.
  assert (Ha : (match preferences with
                | Some p => deref p
                | None => ret []
                end) w = (a, w)).
  { unfold a. by destruct preferences. }
  rewrite Ha. simpl. rewrite bind_run. unfold alloc at 1 2. simpl.
  set (fresh_p := fresh (dom (heap w))).
  destruct (sim_getNews fresh_p p'
              (withArray fresh_p (a ++ [query]) w) w') as [Hr [Hw _]].
  - split; [by rewrite Ho|]. unfold elements. simpl.
    by rewrite lookup_insert_eq, Hp'.
  - done.
Qed.

End PipelineFacts.

(** ** Synthesis under two clocks *)

Section TwoRuns.

Variables clock1 clock2 random1 random2 : nat → Z.

Lemma topics_shape (l : list string) (w1 w2 : World) :
  map shape (collect (NewsService.topicArticle clock1 random1) l w1).1
  = map shape (collect (NewsService.topicArticle clock2 random2) l w2).1.
Proof.
  revert w1 w2. induction l as [|t l IH]; intros w1 w2; [done|].
  simpl. rewrite !bind_run. simpl. f_equal. apply IH.
Qed.

Lemma topics_equal (l : list string) (w1 w2 : World) :
  (∀ i, clock1 (ticks w1 + i) = clock2 (ticks w2 + i)) →
  (∀ i, random1 (draws w1 + i) = random2 (draws w2 + i)) →
  (collect (NewsService.topicArticle clock1 random1) l w1).1
  = (collect (NewsService.topicArticle clock2 random2) l w2).1.
Proof.
  revert w1 w2. induction l as [|t l IH]; intros w1 w2 Hc Hr; [done|].
  simpl. rewrite !bind_run. simpl.
  pose proof (Hc 0) as Hc0. pose proof (Hr 0) as Hr0.
  rewrite !Nat.add_0_r in Hc0, Hr0. rewrite Hc0, Hr0. f_equal.
  apply IH; simpl; intros i.
  - specialize (Hc (S i)). by rewrite !Nat.add_succ_r in Hc.
  - specialize (Hr (S i)). by rewrite !Nat.add_succ_r in Hr.
Qed.

(** C8 (as the code has it): two calls of [generateMockNews] on arrays
    of the same terms give as many articles, equal in title,
    description, content, url, image and source, whatever the clock
    and the random draws of each call; [publishedAt] comes from the
    clock and the draws, and the two arrays are equal when the
    readings and the draws of the two calls are. *)
Theorem synthesis_same_shape (p1 p2 : loc) (w1 w2 : World) :
  elements p1 w1 = elements p2 w2 →
  let l1 := (NewsService.generateMockNews clock1 random1 p1 w1).1 in
  let l2 := (NewsService.generateMockNews clock2 random2 p2 w2).1 in
  map shape l1 = map shape l2
  ∧ length l1 = length l2
  ∧ ((∀ i, clock1 (ticks w1 + i) = clock2 (ticks w2 + i)) →
     (∀ i, random1 (draws w1 + i) = random2 (draws w2 + i)) →
     l1 = l2).
Proof.
  intros He l1 l2.
  assert (Hs : map shape l1 = map shape l2).
  { unfold l1, l2, NewsService.generateMockNews.
    rewrite !bind_run. unfold deref at 1 2 3 4. simpl.
    fold (elements p1 w1) (elements p2 w2). rewrite He.
    repeat (rewrite !bind_run; simpl).
    destruct (1 <? length _); [|done].
    rewrite !bind_run. simpl. do 3 f_equal. apply topics_shape. }
  split; [done|]. split.
  { by rewrite <-(length_map shape l1), Hs, length_map. }
  intros Hc Hr.
  unfold l1, l2, NewsService.generateMockNews.
  rewrite !bind_run. unfold deref at 1 2 3 4. simpl.
  fold (elements p1 w1) (elements p2 w2). rewrite He.
  repeat (rewrite !bind_run; simpl).
  pose proof (Hc 0) as Hc0. pose proof (Hc 1) as Hc1.
  pose proof (Hc 2) as Hc2.
  rewrite !Nat.add_0_r in Hc0. rewrite !Nat.add_1_r in Hc1.
  replace (ticks w1 + 2) with (S (S (ticks w1))) in Hc2 by lia.
  replace (ticks w2 + 2) with (S (S (ticks w2))) in Hc2 by lia.
  rewrite Hc0, Hc1, Hc2.
  destruct (1 <? length _); [|done].
  rewrite !bind_run. simpl. do 3 f_equal.
  apply topics_equal; simpl; [|done].
  intros i. etrans; [|etrans; [exact (Hc (3 + i))|]]; f_equal; lia.
Qed.

End TwoRuns.

(** ** Concrete runs *)

Lemma fallback_order_witness :
  let cfg := config (Some "g-key") (Some "n-key") in
  let w := boot cfg {[ 1%positive := ["tech"] ]} in
  ∃ x, (NewsService.getNews everySecond fiveSeconds gnewsOnly cfg 1%positive w).1
       = {| news := [x]; cached := false; source := "gnews" |}.
Proof.
  intros cfg w.
  destruct (fallback_order everySecond fiveSeconds gnewsOnly cfg
              1%positive ["tech"] w) as [Hprimary _].
  - reflexivity.
  - reflexivity.
  - eexists.
    apply (Hprimary "g-key" [headline]); [reflexivity|discriminate| |];
      reflexivity.
Defined.

Lemma fallback_exhausted_witness :
  let cfg := config None None in
  let w := boot cfg {[ 1%positive := ["sports"; "finance"] ]} in
  let r := (NewsService.getNews everySecond fiveSeconds offline cfg 1%positive w).1 in
  source r = "mock" ∧ cached r = false
  ∧ Z.of_nat (length (news r)) = (3 + Z.max 0 (Z.of_nat 2 - 1))%Z
  ∧ news r ≠ [].
Proof.
  intros cfg w.
  apply (fallback_exhausted everySecond fiveSeconds offline cfg
           1%positive ["sports"; "finance"] w).
  - reflexivity.
  - reflexivity.
  - left. by left.
  - left. by left.
Defined.

Lemma cache_write_through_witness :
  let cfg := config None None in
  let w := boot cfg {[ 1%positive := ["tech"] ]} in
  let first := NewsService.getNews everySecond fiveSeconds offline cfg 1%positive w in
  let second :=
    NewsService.getNews everySecond fiveSeconds offline cfg 1%positive first.2 in
  cached first.1 = false
  ∧ second.1 = {| news := news first.1; cached := true; source := "cache" |}.
Proof.
  intros cfg w first second. split; [reflexivity|].
  destruct (cache_write_through everySecond fiveSeconds offline cfg
              1%positive ["tech"] w) as (e & _ & _ & Hexp & Hrepeat).
  - reflexivity.
  - reflexivity.
  - apply (Hrepeat 1%positive ["tech"]).
    + reflexivity.
    + reflexivity.
    + rewrite Hexp. vm_compute. discriminate.
Defined.

Lemma search_composition_witness :
  let cfg := config None None in
  let w := boot cfg {[ 1%positive := ["tech"]; 2%positive := ["ai"; "tech"] ]} in
  (NewsService.searchNews everySecond fiveSeconds offline cfg "ai"
     (Some 1%positive) w).1
  = (NewsService.getNews everySecond fiveSeconds offline cfg 2%positive w).1.
Proof.
  intros cfg w.
  apply (search_composition everySecond fiveSeconds offline cfg "ai"
           (Some 1%positive) w w 2%positive ["ai"; "tech"]).
  - reflexivity.
  - reflexivity.
  - apply perm_swap.
Defined.

Lemma synthesis_same_shape_witness :
  let w := boot (config None None) {[ 1%positive := ["tech"; "ai"] ]} in
  let first := NewsService.generateMockNews everySecond fiveSeconds 1%positive w in
  let second :=
    NewsService.generateMockNews everySecond fiveSeconds 1%positive first.2 in
  map shape first.1 = map shape second.1.
Proof.
  intros w first second.
  apply (synthesis_same_shape everySecond everySecond fiveSeconds fiveSeconds
           1%positive 1%positive w first.2).
  reflexivity.
Defined.

(** C8, as stated, fails: two calls one after the other on the same
    array give different [publishedAt] values, the clock having moved. *)
Lemma synthesis_not_deterministic :
  let w := boot (config None None) {[ 1%positive := ["tech"] ]} in
  let first := NewsService.generateMockNews everySecond fiveSeconds 1%positive w in
  let second :=
    NewsService.generateMockNews everySecond fiveSeconds 1%positive first.2 in
  map publishedAt first.1
  = [Some "2023-11-14T22:13:20.000Z"; Some "2023-11-13T22:13:21.000Z";
     Some "2023-11-12T22:13:22.000Z"]
  ∧ map publishedAt second.1
    = [Some "2023-11-14T22:13:23.000Z"; Some "2023-11-13T22:13:24.000Z";
       Some "2023-11-12T22:13:25.000Z"]
  ∧ first.1 ≠ second.1.
Proof.
  intros w first second. split; [reflexivity|]. split; [reflexivity|].
  intros H. apply (f_equal (map publishedAt)) in H.
  vm_compute in H. discriminate H.
Qed.

(** ** The scenario of two preferences and no provider *)

Section Scenario.

Variable clock : nat → Z.
Variable random : nat → Z.
Variable respond : nat → Request → Response.
Variables k1 k2 : option string.
Variable p : loc.
Variable h : gmap loc (list string).

Hypothesis no_gnews : unconfigured k1.
Hypothesis no_newsapi : unconfigured k2.
Hypothesis prefs : h !! p = Some ["sports"; "finance"].

Abbreviation lookup := (Stage.lookup clock).
Abbreviation scenarioNews := (TwoTopics.scenarioNews clock random).
Abbreviation scenarioEntry := (TwoTopics.scenarioEntry clock random).
Abbreviation scenarioWorld := (TwoTopics.scenarioWorld clock random p h).

Lemma scenario_first :
  NewsService.getNews clock random respond (config k1 k2) p
    (boot (config k1 k2) h)
  = ({| news := scenarioNews; cached := false; source := "mock" |},
     scenarioWorld).
Proof.
  set (cfg := config k1 k2). set (w := boot cfg h).
  assert (Hl : lookup p w
               = (None, withArray p ["finance"; "sports"] w)).
  { unfold lookup. rewrite bind_run, (generateKey_run w p _ prefs).
    simpl. by rewrite get_absent. }
  rewrite getNews_miss by (by rewrite Hl). rewrite Hl. cbv zeta.
  cbn [fst snd]. rewrite (generateKey_run w p _ prefs). cbn [fst snd].
  rewrite fetchFromGNews_declines by done.
  cbn [fst snd fruitful NewsService.usable].
  rewrite fetchFromNewsAPI_declines by done.
  cbn [fst snd fruitful NewsService.usable].
  assert (Hm : NewsService.generateMockNews clock random p
                 (withArray p ["finance"; "sports"] w)
               = (scenarioNews,
                  {| ticks := 4; draws := 1; requests := [];
                     heap := <[p := ["finance"; "sports"]]> h;
                     singleton := newCache 300000 |})).
  { unfold NewsService.generateMockNews.
    rewrite bind_run. unfold deref at 1 2. simpl.
    rewrite lookup_insert_eq. simpl.
    by repeat (rewrite bind_run; simpl). }
  rewrite Hm. cbn [fst snd]. by rewrite settle_run, set_run.
Qed.

Lemma scenario_second :
  (clock 6 ≤ clock 4 + 300000)%Z →
  (NewsService.getNews clock random respond (config k1 k2) p
     scenarioWorld).1
  = {| news := scenarioNews; cached := true; source := "cache" |}.
Proof.
  intros Hle.
  by rewrite (getNews_served clock random respond (config k1 k2) p
                ["finance"; "sports"] scenarioWorld scenarioEntry);
    [ | apply lookup_insert_eq | | ].
Qed.

(** C9 (as the code has it): with the array ["sports"; "finance"],
    no provider configured and a process that has just started,
    [getNews] returns four synthesized articles with source "mock" and
    [cached] false: three whose titles carry one of the two terms as
    the lead topic and a fourth titled after the other term.  The
    call repeated while the clock has not passed the five minutes of
    the stored entry (the reading the repeat takes is the seventh of
    the process, the entry was stamped at the fifth) returns the same
    articles with [cached] true and source "cache". *)
Theorem scenario_sports_finance :
  let cfg := config k1 k2 in
  let first :=
    NewsService.getNews clock random respond cfg p (boot cfg h) in
  let second :=
    NewsService.getNews clock random respond cfg p first.2 in
  length (news first.1) = 4
  ∧ source first.1 = "mock"
  ∧ cached first.1 = false
  ∧ (∃ lead other,
        [lead; other] ≡ₚ ["sports"; "finance"]
        ∧ map title (news first.1)
          = [ Some ("Latest updates in " +:+ lead +:+ " industry");
              Some ("Top " +:+ lead +:+ " stories of the week");
              Some ("Expert analysis on " +:+ lead +:+ " trends");
              Some (capitalized other +:+ " news update") ])
  ∧ ((clock 6 ≤ clock 4 + 300000)%Z →
     cached second.1 = true
     ∧ source second.1 = "cache"
     ∧ news second.1 = news first.1).
Proof.
  intros cfg first second. unfold second, first, cfg.
  rewrite scenario_first. cbn [fst snd news source cached].
  split; [done|]. split; [done|]. split; [done|]. split.
  - exists "finance", "sports". split; [apply perm_swap|done].
  - intros Hle. by rewrite (scenario_second Hle).
Qed.

End Scenario.

Lemma scenario_sports_finance_witness :
  let cfg := config None None in
  let first :=
    NewsService.getNews everySecond fiveSeconds offline cfg 1%positive
      (boot cfg {[ 1%positive := ["sports"; "finance"] ]}) in
  let second :=
    NewsService.getNews everySecond fiveSeconds offline cfg 1%positive first.2 in
  length (news first.1) = 4
  ∧ cached second.1 = true.
Proof.
  intros cfg first second.
  destruct (scenario_sports_finance everySecond fiveSeconds offline
              None None 1%positive {[ 1%positive := ["sports"; "finance"] ]})
    as (Hlen & _ & _ & _ & Hrepeat).
  - by left.
  - by left.
  - reflexivity.
  - split; [exact Hlen|]. apply Hrepeat. vm_compute. discriminate.
Defined.

(** C9, as stated, fails: in that scenario the first article is titled
    "Latest updates in finance industry", and no title of the four
    contains "sports". *)
Lemma scenario_titles_not_all_sports :
  let cfg := config None None in
  let first :=
    NewsService.getNews everySecond fiveSeconds offline cfg 1%positive
      (boot cfg {[ 1%positive := ["sports"; "finance"] ]}) in
  map title (news first.1)
  = [ Some "Latest updates in finance industry";
      Some "Top finance stories of the week";
      Some "Expert analysis on finance trends";
      Some "Sports news update" ]
  ∧ ¬ Forall (λ a, mentions "sports" a = true) (news first.1)
  ∧ Forall (λ a, mentions "sports" a = false) (news first.1).
Proof.
  intros cfg first. split; [reflexivity|]. split.
  - intros H. apply Forall_inv in H. vm_compute in H. discriminate H.
  - repeat constructor.
Qed.

(** * Further properties *)

Example trim_examples :
  JsText.trim "  Tech News  " = "Tech News"
  ∧ JsText.trim "   " = "" ∧ JsText.trim "" = ""
  ∧ JsText.toLowerCase "Tech News" = "tech news".
Proof. repeat split. Qed.

(** The no-break space U+00A0 is trimmed like a space; the next line
    U+0085 is not white space. *)
Example trim_no_break_space :
  let nbsp := String (ascii_of_N 160) "" in
  let nel := String (ascii_of_N 133) "" in
  JsText.trim (nbsp +:+ "ai" +:+ nbsp) = "ai"
  ∧ JsText.trim (nbsp +:+ " " +:+ nbsp) = ""
  ∧ JsText.trim nel = nel.
Proof. repeat split. Qed.

(** U+00C9 and U+00E9 are the capital and the small e with acute
    accent; the sharp s has a capital of two letters and is its own
    small letter; the multiplication and division signs have no case. *)
Example case_latin1 :
  let str (n : N) := String (ascii_of_N n) "" in
  let word (n : N) (s : string) := str n +:+ s +:+ str n in
  JsText.toLowerCase (word 201%N "T") = word 233%N "t"
  ∧ Js.toUpperCase (word 233%N "t") = word 201%N "T"
  ∧ Js.toUpperCase (str 223%N) = "SS"
  ∧ JsText.toLowerCase (str 223%N) = str 223%N
  ∧ JsText.toLowerCase (str 215%N) = str 215%N
  ∧ Js.toUpperCase (str 247%N) = str 247%N
  ∧ Js.toUpperCase "finance" = "FINANCE".
Proof. repeat split. Qed.

(** ** The cache: round trips, frames and invalidation *)

Section CacheMore.

Variable clock : nat → Z.

(** X1: what [set] stores under a key, [get] returns for that key as
    long as the reading of the clock it takes is not past the reading
    [set] took plus the time to live; past it, [get] returns nothing
    and the key is gone. *)
Theorem set_get_round_trip (w : World) (key : string) (d : list Article)
    (customTtl : option Z) :
  let w1 := (Cache.set clock key d customTtl w).2 in
  let deadline :=
    (clock (ticks w) + effectiveTtl (singleton w) customTtl)%Z in
  ((clock (ticks w1) ≤ deadline)%Z →
   (Cache.get clock key w1).1 = Some d)
  ∧ ((deadline < clock (ticks w1))%Z →
     (Cache.get clock key w1).1 = None
     ∧ cache (singleton (Cache.get clock key w1).2) !! key = None).
Proof.
  intros w1 deadline. unfold w1, deadline. rewrite set_run.
  cbn [snd]. split.
  - intros Hle. erewrite get_live; [ | apply lookup_insert_eq | ]; done.
  - intros Hlt. erewrite get_expired; [ | apply lookup_insert_eq | ];
      [ | done ].
    split; [done|]. simpl. apply lookup_delete_eq.
Qed.

(** X2: [set] overwrites: after two [set] on the same key the entry is
    the second one, with the second data and an expiry counted from the
    second call, and the map has the keys it had after the first. *)
Theorem set_overwrites (w : World) (key : string) (d1 d2 : list Article)
    (c1 c2 : option Z) :
  let w1 := (Cache.set clock key d1 c1 w).2 in
  let w2 := (Cache.set clock key d2 c2 w1).2 in
  (∃ e, cache (singleton w2) !! key = Some e
        ∧ data e = d2
        ∧ expiresAt e
          = (clock (ticks w1) + effectiveTtl (singleton w) c2)%Z)
  ∧ dom (cache (singleton w2)) = dom (cache (singleton w1))
  ∧ size (cache (singleton w2)) = size (cache (singleton w1)).
Proof.
  intros w1 w2. unfold w2, w1. rewrite !set_run. cbn [snd]. simpl.
  split; [|split].
  - eexists. split; [apply lookup_insert_eq|]. done.
  - by rewrite insert_insert_eq, !dom_insert_L.
  - rewrite insert_insert_eq.
    rewrite !map_size_insert. by destruct (_ !! key).
Qed.

(** X3: [set], [get] and [delete] on one key leave the entry of every
    other key as it was. *)
Theorem other_keys_untouched (w : World) (key other : string)
    (d : list Article) (customTtl : option Z) :
  key ≠ other →
  cache (singleton (Cache.set clock key d customTtl w).2) !! other
  = cache (singleton w) !! other
  ∧ cache (singleton (Cache.get clock key w).2) !! other
    = cache (singleton w) !! other
  ∧ cache (singleton (Cache.delete key w).2) !! other
    = cache (singleton w) !! other.
Proof.
  intros Hne. split; [|split].
  - rewrite set_run. simpl. by apply lookup_insert_ne.
  - unfold Cache.get, bind, this.
    destruct (cache (singleton w) !! key) as [item|]; [|done]. simpl.
    destruct (expiresAt item <? clock (ticks w))%Z; [|done].
    simpl. by apply lookup_delete_ne.
  - simpl. by apply lookup_delete_ne.
Qed.

(** X4: after [delete(key)] a [get] of the key returns nothing whatever
    the clock reads, even for an entry that had not expired; deleting
    twice is deleting once, and deleting an absent key changes
    nothing. *)
Theorem delete_invalidates (w : World) (key : string) :
  let w1 := (Cache.delete key w).2 in
  Cache.get clock key w1 = (None, w1)
  ∧ (Cache.delete key w1).2 = w1
  ∧ (cache (singleton w) !! key = None → w1 = w).
Proof.
  intros w1. split; [|split].
  - apply get_absent. simpl. apply lookup_delete_eq.
  - unfold w1, Cache.delete, updateMap. simpl.
    by rewrite delete_delete_eq.
  - intros Habs. unfold w1, Cache.delete, updateMap. simpl.
    rewrite (delete_id _ _ Habs). by destruct w as [? ? ? ? []].
Qed.

Lemma getStats_run (w : World) :
  Cache.getStats clock w
  = ({| totalEntries := size (cache (singleton w));
        validEntries :=
          size (filter (λ kv, (expiresAt kv.2 <? clock (ticks w))%Z = false)
                  (cache (singleton w)));
        expiredEntries :=
          size (filter (λ kv, (expiresAt kv.2 <? clock (ticks w))%Z = true)
                  (cache (singleton w)));
        ttlMs := ttl (singleton w) |}, tick w).
Proof. reflexivity. Qed.

(** X5: the two counts of [getStats] add up to the total, the expired
    ones being the entries the reading of the clock has passed; and
    [getStats] evicts nothing: the cache is as it was. *)
Theorem getStats_partition (w : World) :
  let s := (Cache.getStats clock w).1 in
  validEntries s + expiredEntries s = totalEntries s
  ∧ totalEntries s = size (cache (singleton w))
  ∧ expiredEntries s
    = size (filter (λ kv, (expiresAt kv.2 < clock (ticks w))%Z)
              (cache (singleton w)))
  ∧ singleton (Cache.getStats clock w).2 = singleton w.
Proof.
  intros s. unfold s. rewrite getStats_run. cbn [fst snd].
  cbn [validEntries expiredEntries totalEntries].
  set (m := cache (singleton w)). set (t := clock (ticks w)).
  set (P := λ kv : string * CacheEntry, (expiresAt kv.2 <? t)%Z = true).
  assert (Hv : filter (λ kv : string * CacheEntry,
                         (expiresAt kv.2 <? t)%Z = false) m
               = filter (λ kv, ¬ P kv) m).
  { apply map_filter_ext. intros i x _. unfold P.
    by destruct (expiresAt (i, x).2 <? t)%Z. }
  split; [|split; [done|split; [|done]]].
  - rewrite Hv, Nat.add_comm, <-map_size_disj_union
      by apply map_disjoint_filter_complement.
    by rewrite map_filter_union_complement.
  - f_equal. apply map_filter_ext. intros i x _. unfold P.
    apply Z.ltb_lt.
Qed.

(** X6: after [clear()] every [get] returns nothing and [getStats]
    counts no entry; the time to live of the instance is kept. *)
Theorem clear_empties (w : World) :
  let w1 := (Cache.clear w).2 in
  (∀ key, Cache.get clock key w1 = (None, w1))
  ∧ (Cache.getStats clock w1).1
    = {| totalEntries := 0; validEntries := 0; expiredEntries := 0;
         ttlMs := ttl (singleton w) |}.
Proof.
  intros w1. split.
  - intros key. by apply get_absent.
  - rewrite getStats_run. unfold w1. simpl.
    by rewrite !map_filter_empty, map_size_empty.
Qed.

Lemma get_shrinks (key : string) (w : World) :
  cache (singleton (Cache.get clock key w).2) ⊆ cache (singleton w)
  ∧ ttl (singleton (Cache.get clock key w).2) = ttl (singleton w).
Proof.
  unfold Cache.get, bind, this.
  destruct (cache (singleton w) !! key) as [item|]; [|done]. simpl.
  destruct (expiresAt item <? clock (ticks w))%Z; [|done].
  simpl. split; [apply delete_subseteq|done].
Qed.

(** X7: reading never renews: after any run of [get] calls, every
    entry still in the cache is an entry that was there before, with
    the same data and the same expiry, and the time to live of the
    instance has not changed. *)
Theorem gets_never_renew (keys : list string) (w : World) :
  let w1 := (collect (Cache.get clock) keys w).2 in
  cache (singleton w1) ⊆ cache (singleton w)
  ∧ ttl (singleton w1) = ttl (singleton w).
Proof.
  revert w. induction keys as [|k keys IH]; intros w; [done|].
  simpl. rewrite !bind_run. simpl.
  destruct (get_shrinks k w) as [Hs Ht].
  destruct (IH (Cache.get clock k w).2) as [Hs' Ht'].
  split; [by etrans|by etrans].
Qed.

(** X8: a custom time to live below zero stores an entry that is
    already expired: with a clock that does not run backwards, the
    next [get] of the key returns nothing and removes it. *)
Theorem negative_ttl_expires_at_once (w : World) (key : string)
    (d : list Article) (t : Z) :
  (t < 0)%Z →
  (clock (ticks w) ≤ clock (S (S (ticks w))))%Z →
  let w1 := (Cache.set clock key d (Some t) w).2 in
  (Cache.get clock key w1).1 = None
  ∧ cache (singleton (Cache.get clock key w1).2) !! key = None.
Proof.
  intros Ht Hmono w1. unfold w1. rewrite set_run. cbn [snd].
  erewrite get_expired; [ | apply lookup_insert_eq | ].
  - split; [done|]. simpl. apply lookup_delete_eq.
  - simpl. destruct (Z.eqb_spec t 0); lia.
Qed.

End CacheMore.

(** ** The key *)

Lemma sort_sorted_id (a : list string) : Sorted String.le a → Js.sort a = a.
Proof.
  intros Hs. apply (Sorted_unique String.le); [apply sort_sorted|done|].
  apply sort_perm.
Qed.

(** X9: [generateKey] leaves the caller's array sorted and holding the
    same elements as before, duplicates included; a second call gives
    the same key and changes nothing more. *)
Theorem generateKey_sorts_once (w : World) (p : loc) (a : list string) :
  heap w !! p = Some a →
  let w1 := (Cache.generateKey (Some p) w).2 in
  ∃ a', heap w1 !! p = Some a'
        ∧ Sorted String.le a'
        ∧ a' ≡ₚ a
        ∧ Cache.generateKey (Some p) w1
          = ((Cache.generateKey (Some p) w).1, w1).
Proof.
  intros Hp w1. unfold w1. rewrite (generateKey_run _ _ _ Hp). cbn [fst snd].
  exists (Js.sort a).
  assert (Hh : heap (withArray p (Js.sort a) w) !! p = Some (Js.sort a))
    by apply lookup_insert_eq.
  split; [done|]. split; [apply sort_sorted|]. split; [apply sort_perm|].
  rewrite (generateKey_run _ _ _ Hh).
  rewrite (keyOf_order_independent _ _ (sort_perm a)).
  rewrite (sort_sorted_id (Js.sort a)) by apply sort_sorted.
  f_equal. unfold withArray. simpl. by rewrite insert_insert_eq.
Qed.

Lemma generateKey_sorts_once_witness :
  let w := boot (config None None) {[ 1%positive := ["b"; "a"; "b"] ]} in
  ∃ a', heap (Cache.generateKey (Some 1%positive) w).2 !! 1%positive
        = Some a'
        ∧ Sorted String.le a' ∧ a' ≡ₚ ["b"; "a"; "b"]
        ∧ Cache.generateKey (Some 1%positive)
            (Cache.generateKey (Some 1%positive) w).2
          = ((Cache.generateKey (Some 1%positive) w).1,
             (Cache.generateKey (Some 1%positive) w).2).
Proof.
  intros w. apply (generateKey_sorts_once w 1%positive ["b"; "a"; "b"]).
  reflexivity.
Defined.

(** X10: the key does not tell two terms from one term that is the two
    joined by a comma: an array of the two terms [x] and [y], in either
    order, gets the key of the array [[x + "," + y]] where [x] is the
    smaller of the two; and the array [["general"]] gets the key of an
    absent or empty array. *)
Theorem generateKey_collisions (x y : string) (a : list string)
    (w1 w2 : World) (p1 p2 : loc) :
  String.le x y →
  a ≡ₚ [x; y] →
  heap w1 !! p1 = Some a →
  heap w2 !! p2 = Some [x +:+ "," +:+ y] →
  (Cache.generateKey (Some p1) w1).1 = (Cache.generateKey (Some p2) w2).1
  ∧ ∀ w p, heap w !! p = Some ["general"] →
      (Cache.generateKey (Some p) w).1 = (Cache.generateKey None w).1.
Proof.
  intros Hle Hperm H1 H2. split.
  - rewrite (generateKey_run _ _ _ H1), (generateKey_run _ _ _ H2).
    cbn [fst]. rewrite (keyOf_order_independent _ _ Hperm).
    unfold keyOf. cbn [Js.nonEmpty].
    rewrite (sort_sorted_id [x; y]) by (repeat constructor; done).
    rewrite (sort_sorted_id [_]) by repeat constructor.
    unfold Js.join. simpl. done.
  - intros w p Hp. by rewrite (generateKey_run _ _ _ Hp).
Qed.

Lemma generateKey_collisions_witness :
  (Cache.generateKey (Some 1%positive)
     (boot (config None None) {[ 1%positive := ["b"; "a"] ]})).1
  = (Cache.generateKey (Some 1%positive)
       (boot (config None None) {[ 1%positive := ["a,b"] ]})).1.
Proof.
  apply (generateKey_collisions "a" "b" ["b"; "a"]
           (boot (config None None) {[ 1%positive := ["b"; "a"] ]})
           (boot (config None None) {[ 1%positive := ["a,b"] ]})
           1%positive 1%positive).
  - vm_compute. exact I.
  - apply perm_swap.
  - reflexivity.
  - reflexivity.
Defined.

(** ** The fetches *)

Section FetchMore.

Variable respond : nat → Request → Response.
Variable cfg : Config.

Abbreviation fetchFromGNews := (NewsService.fetchFromGNews respond cfg).
Abbreviation fetchFromNewsAPI := (NewsService.fetchFromNewsAPI respond cfg).

(** X11: a provider whose key is absent or the empty string declines:
    the fetch returns [null] and the process is as it was, no request
    having been sent.  A configured provider is sent exactly one
    request per fetch, whatever the answer, failure included: the terms
    joined by " OR ", or "general" for an empty array, go to the
    provider's endpoint with its key; clock, draws, heap and cache are
    as they were. *)
Theorem fetch_request_discipline (p : loc) (w : World) (kg kn : string) :
  let a := elements p w in
  let query := if Js.nonEmpty a then Js.join " OR " a else "general" in
  (unconfigured (gnewsApiKey cfg) →
   fetchFromGNews p w = (Returned None, w))
  ∧ (unconfigured (newsApiKey cfg) →
     fetchFromNewsAPI p w = (Returned None, w))
  ∧ (gnewsApiKey cfg = Some kg → kg ≠ "" →
     (fetchFromGNews p w).2
     = sent {| to := GNews; endpoint := gnewsBaseUrl cfg +:+ "/search";
               q := query; apikey := kg |} w)
  ∧ (newsApiKey cfg = Some kn → kn ≠ "" →
     (fetchFromNewsAPI p w).2
     = sent {| to := NewsAPI;
               endpoint := newsApiBaseUrl cfg +:+ "/everything";
               q := query; apikey := kn |} w).
Proof.
  intros a query. split; [|split; [|split]].
  - by apply fetchFromGNews_declines.
  - by apply fetchFromNewsAPI_declines.
  - intros Hk Hne. unfold NewsService.fetchFromGNews. rewrite Hk.
    destruct kg as [|c k]; [done|].
    unfold bind, deref, axiosGet. simpl. by destruct (respond _ _).
  - intros Hk Hne. unfold NewsService.fetchFromNewsAPI. rewrite Hk.
    destruct kn as [|c k]; [done|].
    unfold bind, deref, axiosGet. simpl. by destruct (respond _ _).
Qed.

Lemma mapM_fromGNews (l : list NativeArticle) :
  Forall (λ n, is_Some (n_source n)) l →
  ∃ r, mapM NewsService.fromGNews l = Some r
       ∧ Forall2 (mirrors n_image) l r
       ∧ Forall2 (λ n a, src_url (src a) = n_source n ≫= s_url) l r.
Proof.
  induction 1 as [|n l [s Hs] _ (r & Hr & H1 & H2)].
  - exists []. by repeat split; constructor.
  - eexists. split; [|split].
    + simpl. rewrite Hr. unfold NewsService.fromGNews. cbv beta.
      rewrite Hs. reflexivity.
    + constructor; [|done]. unfold mirrors. simpl. by rewrite Hs.
    + constructor; [|done]. simpl. by rewrite Hs.
Qed.

Lemma mapM_fromNewsAPI (l : list NativeArticle) :
  Forall (λ n, is_Some (n_source n)) l →
  ∃ r, mapM NewsService.fromNewsAPI l = Some r
       ∧ Forall2 (mirrors n_urlToImage) l r
       ∧ Forall (λ a, src_url (src a) = None) r.
Proof.
  induction 1 as [|n l [s Hs] _ (r & Hr & H1 & H2)].
  - exists []. by repeat split; constructor.
  - eexists. split; [|split].
    + simpl. rewrite Hr. unfold NewsService.fromNewsAPI. cbv beta.
      rewrite Hs. reflexivity.
    + constructor; [|done]. unfold mirrors. simpl. by rewrite Hs.
    + by constructor.
Qed.

(** X12: when a configured provider answers with articles that all
    carry a [source] object, the fetch returns as many articles, in the
    same order, each with the fields of its original: GNews's [image]
    and source url are kept, NewsAPI's [urlToImage] becomes [image] and
    the source url is always [null]. *)
Theorem fetch_normalizes (p : loc) (w : World) (a : list string)
    (kg kn : string) (l : list NativeArticle) :
  heap w !! p = Some a →
  Forall (λ n, is_Some (n_source n)) l →
  (gnewsApiKey cfg = Some kg → kg ≠ "" →
   respond (length (requests w)) (Stage.gnewsRequest cfg kg a) = Articles l →
   ∃ r, (fetchFromGNews p w).1 = Returned (Some r)
        ∧ Forall2 (mirrors n_image) l r
        ∧ Forall2 (λ n a, src_url (src a) = n_source n ≫= s_url) l r)
  ∧ (newsApiKey cfg = Some kn → kn ≠ "" →
     respond (length (requests w)) (Stage.newsApiRequest cfg kn a)
     = Articles l →
     ∃ r, (fetchFromNewsAPI p w).1 = Returned (Some r)
          ∧ Forall2 (mirrors n_urlToImage) l r
          ∧ Forall (λ a, src_url (src a) = None) r).
Proof.
  intros Hp Hl. split; intros Hk Hne Hresp.
  - destruct (mapM_fromGNews l Hl) as (r & Hr & H1 & H2).
    exists r. split; [|done].
    rewrite (fetchFromGNews_sends respond cfg p w kg a Hk Hne Hp).
    rewrite Hresp. simpl. unfold NewsService.mapArticles. by rewrite Hr.
  - destruct (mapM_fromNewsAPI l Hl) as (r & Hr & H1 & H2).
    exists r. split; [|done].
    rewrite (fetchFromNewsAPI_sends respond cfg p w kn a Hk Hne Hp).
    rewrite Hresp. simpl. unfold NewsService.mapArticles. by rewrite Hr.
Qed.

Lemma mapM_without_source (f : NativeArticle → option Article)
    (l : list NativeArticle) :
  (∀ n, n_source n = None → f n = None) →
  Exists (λ n, n_source n = None) l →
  mapM f l = None.
Proof.
  intros Hf. induction 1 as [n l Hn|n l _ IH]; simpl.
  - by rewrite (Hf n Hn).
  - rewrite IH. by destruct (f n).
Qed.

(** X13: one article without a [source] object spoils the whole
    answer: the fetch throws, whatever the other articles are. *)
Theorem article_without_source_fails_fetch (p : loc) (w : World)
    (a : list string) (kg kn : string) (l : list NativeArticle) :
  heap w !! p = Some a →
  Exists (λ n, n_source n = None) l →
  (gnewsApiKey cfg = Some kg → kg ≠ "" →
   respond (length (requests w)) (Stage.gnewsRequest cfg kg a) = Articles l →
   (fetchFromGNews p w).1 = Threw)
  ∧ (newsApiKey cfg = Some kn → kn ≠ "" →
     respond (length (requests w)) (Stage.newsApiRequest cfg kn a)
     = Articles l →
     (fetchFromNewsAPI p w).1 = Threw).
Proof.
  intros Hp Hl. split; intros Hk Hne Hresp.
  - rewrite (fetchFromGNews_sends respond cfg p w kg a Hk Hne Hp).
    rewrite Hresp. simpl. unfold NewsService.mapArticles.
    rewrite (mapM_without_source NewsService.fromGNews l); [done| |done].
    intros n Hn. unfold NewsService.fromGNews. by rewrite Hn.
  - rewrite (fetchFromNewsAPI_sends respond cfg p w kn a Hk Hne Hp).
    rewrite Hresp. simpl. unfold NewsService.mapArticles.
    rewrite (mapM_without_source NewsService.fromNewsAPI l); [done| |done].
    intros n Hn. unfold NewsService.fromNewsAPI. by rewrite Hn.
Qed.

End FetchMore.

(** ** [getNews] as a whole *)

Section PipelineMore.

Variable clock : nat → Z.
Variable random : nat → Z.
Variable respond : nat → Request → Response.
Variable cfg : Config.

Abbreviation fetchFromGNews := (NewsService.fetchFromGNews respond cfg).
Abbreviation fetchFromNewsAPI := (NewsService.fetchFromNewsAPI respond cfg).
Abbreviation generateMockNews := (NewsService.generateMockNews clock random).
Abbreviation getNews := (NewsService.getNews clock random respond cfg).
Abbreviation searchNews := (NewsService.searchNews clock random respond cfg).
Abbreviation lookup := (Stage.lookup clock).
Abbreviation settle := (Stage.settle clock).

Lemma generateKey_outside (o : option loc) (w : World) :
  outside (Cache.generateKey o w).2 = outside w.
Proof.
  destruct o as [p|]; [|done]. unfold Cache.generateKey.
  rewrite bind_run. simpl. by destruct (Js.nonEmpty _).
Qed.

Lemma lookup_keeps (p : loc) (w : World) :
  let w' := (lookup p w).2 in
  requests w' = requests w ∧ draws w' = draws w
  ∧ ttl (singleton w') = ttl (singleton w)
  ∧ cache (singleton w') ⊆ cache (singleton w).
Proof.
  unfold Stage.lookup. rewrite bind_run.
  set (k := (Cache.generateKey (Some p) w).1).
  set (w0 := (Cache.generateKey (Some p) w).2).
  pose proof (generateKey_outside (Some p) w) as Ho. fold w0 in Ho.
  unfold outside in Ho. injection Ho as Ht Hd Hr Hs.
  destruct (get_frame clock k w0) as (_ & Hr' & Hd' & Ht').
  destruct (get_shrinks clock k w0) as [Hsub _].
  cbv zeta. rewrite Hr', Hd', Ht', Hr, Hd, Hs. rewrite <-Hs. done.
Qed.

Lemma fetchFromGNews_log (p : loc) (w : World) :
  requests (fetchFromGNews p w).2 = requests w
  ∨ ∃ r, to r = GNews ∧ requests (fetchFromGNews p w).2 = r :: requests w.
Proof.
  unfold NewsService.fetchFromGNews.
  destruct (gnewsApiKey cfg) as [[|c k]|]; [by left| |by left].
  right. unfold bind, deref, axiosGet. simpl.
  eexists. split; [|by destruct (respond _ _)]. done.
Qed.

Lemma fetchFromNewsAPI_log (p : loc) (w : World) :
  requests (fetchFromNewsAPI p w).2 = requests w
  ∨ ∃ r, to r = NewsAPI
         ∧ requests (fetchFromNewsAPI p w).2 = r :: requests w.
Proof.
  unfold NewsService.fetchFromNewsAPI.
  destruct (newsApiKey cfg) as [[|c k]|]; [by left| |by left].
  right. unfold bind, deref, axiosGet. simpl.
  eexists. split; [|by destruct (respond _ _)]. done.
Qed.

(** X14: one call of [getNews] sends at most one request to each
    provider, GNews first, never a second one to the same provider,
    and none at all when it is served from the cache. *)
Theorem getNews_request_budget (p : loc) (w : World) :
  ∃ new, requests (getNews p w).2 = new ++ requests w
    ∧ (new = []
       ∨ (∃ g, to g = GNews ∧ new = [g])
       ∨ (∃ n, to n = NewsAPI ∧ new = [n])
       ∨ (∃ g n, to g = GNews ∧ to n = NewsAPI ∧ new = [n; g]))
    ∧ (cached (getNews p w).1 = true → new = []).
Proof.
  destruct (lookup_keeps p w) as (Hreq & _).
  destruct ((lookup p w).1) as [hit|] eqn:E.
  { rewrite (getNews_hit _ _ _ _ _ _ _ E). exists []. simpl. auto. }
  rewrite (getNews_miss _ _ _ _ _ _ E). cbv zeta.
  set (g := fetchFromGNews p (lookup p w).2).
  set (n := fetchFromNewsAPI p g.2).
  set (m := generateMockNews p n.2).
  pose proof (fetchFromGNews_log p (lookup p w).2) as Hg. fold g in Hg.
  pose proof (fetchFromNewsAPI_log p g.2) as Hn. fold n in Hn.
  destruct (generateMockNews_frame clock random p n.2) as (_ & _ & Hm).
  fold m in Hm. rewrite Hreq in Hg.
  assert (Hpick : ∀ w', (requests w' = requests g.2
                         ∨ requests w' = requests n.2) →
    ∃ new, requests w' = new ++ requests w
      ∧ (new = []
         ∨ (∃ g, to g = GNews ∧ new = [g])
         ∨ (∃ n, to n = NewsAPI ∧ new = [n])
         ∨ (∃ g n, to g = GNews ∧ to n = NewsAPI ∧ new = [n; g]))).
  { intros w' [-> | ->].
    - destruct Hg as [-> | (rg & Hrg & ->)]; [by exists []; auto|].
      exists [rg]. split; [done|]. right. left. eauto.
    - destruct Hn as [-> | (rn & Hrn & ->)].
      + destruct Hg as [-> | (rg & Hrg & ->)]; [by exists []; auto|].
        exists [rg]. split; [done|]. right. left. eauto.
      + destruct Hg as [-> | (rg & Hrg & ->)].
        * exists [rn]. split; [done|]. right. right. left. eauto.
        * exists [rn; rg]. split; [done|]. right. right. right.
          exists rg, rn. auto. }
  destruct (fruitful g.1); [|destruct (fruitful n.1)];
    rewrite settle_run; cbn [fst snd cached]; rewrite set_run; cbn [snd];
    match goal with
    | |- ∃ new, requests ?w' = _ ∧ _ =>
        destruct (Hpick w') as (new & Hnew & Hcases);
          [ simpl; auto
          | exists new; split; [exact Hnew|]; split; [exact Hcases|done] ]
    end.
Qed.

Lemma miss_not_cached (p : loc) (w : World) :
  (lookup p w).1 = None → cached (getNews p w).1 = false.
Proof.
  intros E. rewrite (getNews_miss _ _ _ _ _ _ E). cbv zeta.
  destruct (fruitful _); [done|]. by destruct (fruitful _).
Qed.

Lemma mock_at_least_three (p : loc) (w : World) :
  3 ≤ length (generateMockNews p w).1.
Proof.
  unfold NewsService.generateMockNews.
  repeat (rewrite bind_run; simpl).
  destruct (1 <? length _); [|done].
  rewrite bind_run. simpl. lia.
Qed.

Lemma fruitful_nonEmpty (c : Completion (option (list Article))) :
  fruitful c = true → payload c ≠ [].
Proof. by destruct c as [[[|x l]|]|]. Qed.

(** The world [set] is run in when the lookup has missed: its cache is
    part of the cache the call started with. *)
Lemma miss_stores_over (p : loc) (w : World) :
  (lookup p w).1 = None →
  ∃ key w', (getNews p w).2
            = (Cache.set clock key (news (getNews p w).1) None w').2
            ∧ cache (singleton w') ⊆ cache (singleton w)
            ∧ news (getNews p w).1 ≠ [].
Proof.
  intros E. rewrite (getNews_miss _ _ _ _ _ _ E). cbv zeta.
  destruct (lookup_keeps p w) as (_ & _ & _ & Hsub).
  set (g := fetchFromGNews p (lookup p w).2).
  set (n := fetchFromNewsAPI p g.2).
  set (m := generateMockNews p n.2).
  destruct (fetchFromGNews_frame respond cfg p (lookup p w).2) as (Hg & _).
  destruct (fetchFromNewsAPI_frame respond cfg p g.2) as (Hn & _).
  destruct (generateMockNews_frame clock random p n.2) as (Hm & _).
  fold g in Hg. fold n in Hn. fold m in Hm.
  destruct (fruitful g.1) eqn:Fg; [|destruct (fruitful n.1) eqn:Fn];
    rewrite settle_run; cbn [fst snd news]; do 2 eexists;
    (split; [reflexivity|]); split.
  - by rewrite Hg.
  - by apply fruitful_nonEmpty.
  - by rewrite Hn, Hg.
  - by apply fruitful_nonEmpty.
  - by rewrite Hm, Hn, Hg.
  - pose proof (mock_at_least_three p n.2) as H3. fold m in H3.
    intros Hnil. rewrite Hnil in H3. simpl in H3. lia.
Qed.

Lemma getNews_stocked (p : loc) (w : World) :
  stocked w →
  news (getNews p w).1 ≠ [] ∧ stocked (getNews p w).2.
Proof.
  intros Hst.
  destruct ((lookup p w).1) as [hit|] eqn:E.
  - rewrite (getNews_hit _ _ _ _ _ _ _ E). cbn [fst snd news].
    destruct (lookup_keeps p w) as (_ & _ & _ & Hsub). split.
    + unfold Stage.lookup in E. rewrite bind_run in E.
      apply get_some in E as (item & Hitem & <- & _).
      assert (Hs : singleton (Cache.generateKey (Some p) w).2
                   = singleton w).
      { pose proof (generateKey_outside (Some p) w) as Ho.
        unfold outside in Ho. congruence. }
      rewrite Hs in Hitem. by apply (Hst _ _ Hitem).
    + intros key item Hitem. apply (Hst key item).
      by apply (lookup_weaken _ _ _ _ Hitem Hsub).
  - destruct (miss_stores_over p w E) as (key & w' & Hw & Hsub & Hne).
    split; [done|]. rewrite Hw, set_run. cbn [snd].
    intros key' item. simpl. rewrite lookup_insert.
    case_decide.
    + by intros [= <-].
    + intros Hitem. apply (Hst key' item).
      by apply (lookup_weaken _ _ _ _ Hitem Hsub).
Qed.

(** X15: if every entry of the cache holds at least one article, a
    call of [getNews] returns at least one article, whatever the
    providers do, and every entry of the cache still holds at least
    one. *)
Theorem getNews_never_empty (p : loc) (w : World) :
  stocked w →
  news (getNews p w).1 ≠ [] ∧ stocked (getNews p w).2.
Proof. apply getNews_stocked. Qed.

(** X16: the [source] of a result is one of "cache", "gnews",
    "newsapi" and "mock", and [cached] is true exactly when it is
    "cache". *)
Theorem getNews_source_contract (p : loc) (w : World) :
  let r := (getNews p w).1 in
  (source r = "cache" ∨ source r = "gnews" ∨ source r = "newsapi"
   ∨ source r = "mock")
  ∧ (cached r = true ↔ source r = "cache").
Proof.
  intros r. unfold r.
  destruct ((lookup p w).1) as [hit|] eqn:E.
  - rewrite (getNews_hit _ _ _ _ _ _ _ E). simpl. by split; [left|].
  - rewrite (getNews_miss _ _ _ _ _ _ E). cbv zeta.
    destruct (fruitful _); [|destruct (fruitful _)];
      rewrite settle_run; simpl; (split; [auto|]); by split.
Qed.

(** X17: when GNews is configured but its request fails, or brings no
    article, or articles that cannot be mapped, and NewsAPI answers the
    next request with at least one article, the result is NewsAPI's
    articles with source "newsapi"; the log shows the GNews request and
    then the NewsAPI one. *)
Theorem newsapi_recovers (p : loc) (a : list string) (w : World)
    (kg kn : string) (l : list NativeArticle) (x : Article)
    (xs : list Article) :
  heap w !! p = Some a →
  (lookup p w).1 = None →
  gnewsApiKey cfg = Some kg → kg ≠ "" →
  newsApiKey cfg = Some kn → kn ≠ "" →
  fruitful (digest NewsService.fromGNews
              (respond (length (requests w))
                 (Stage.gnewsRequest cfg kg (Js.sort a)))) = false →
  respond (S (length (requests w)))
    (Stage.newsApiRequest cfg kn (Js.sort a)) = Articles l →
  mapM NewsService.fromNewsAPI l = Some (x :: xs) →
  (getNews p w).1
  = {| news := x :: xs; cached := false; source := "newsapi" |}
  ∧ requests (getNews p w).2
    = Stage.newsApiRequest cfg kn (Js.sort a)
      :: Stage.gnewsRequest cfg kg (Js.sort a) :: requests w.
Proof.
  intros Hp E Hkg Hneg Hkn Hnen Hfail Hresp Hmap.
  destruct (lookup_frame clock p a w Hp) as (Hheap & Hreq & _ & _).
  assert (Hp1 : heap (lookup p w).2 !! p = Some (Js.sort a)).
  { rewrite Hheap. apply lookup_insert_eq. }
  rewrite (getNews_miss _ _ _ _ _ _ E). cbv zeta.
  rewrite (fetchFromGNews_sends respond cfg p _ kg (Js.sort a) Hkg Hneg Hp1).
  cbn [fst snd]. rewrite Hreq, Hfail.
  rewrite (fetchFromNewsAPI_sends respond cfg p _ kn (Js.sort a) Hkn Hnen)
    by done.
  cbn [fst snd sent requests length]. rewrite Hreq, Hresp.
  cbn [digest]. unfold NewsService.mapArticles. rewrite Hmap.
  cbn [fruitful NewsService.usable payload].
  rewrite settle_run, set_run. cbn [fst snd]. simpl. by rewrite Hreq.
Qed.

(** X18: an entry the clock has passed is replaced: the call is not
    served from the cache, and when it returns the key holds a new
    entry with the returned articles, expiring the instance's time to
    live after the reading [set] took. *)
Theorem stale_entry_is_refreshed (p : loc) (a : list string) (w : World)
    (item : CacheEntry) :
  heap w !! p = Some a →
  cache (singleton w) !! keyOf a = Some item →
  (expiresAt item < clock (ticks w))%Z →
  let r := (getNews p w).1 in
  let w1 := (getNews p w).2 in
  cached r = false
  ∧ ∃ e, cache (singleton w1) !! keyOf a = Some e
         ∧ data e = news r
         ∧ expiresAt e = (clock (ticks w1 - 2) + ttl (singleton w))%Z.
Proof.
  intros Hp Hitem Hlt r w1.
  assert (E : (lookup p w).1 = None).
  { unfold Stage.lookup. rewrite bind_run, (generateKey_run _ _ _ Hp).
    cbn [fst snd]. by erewrite get_expired. }
  split; [by apply miss_not_cached|].
  destruct (getNews_stores clock random respond cfg p a w Hp E)
    as (w' & Hw & Httl & _).
  fold w1 r in Hw. rewrite set_run in Hw. rewrite Hw. simpl.
  eexists. split; [apply lookup_insert_eq|]. simpl.
  rewrite Nat.sub_0_r. by rewrite Httl.
Qed.

Lemma getNews_heap (p : loc) (a : list string) (w : World) :
  heap w !! p = Some a →
  heap (getNews p w).2 = <[p := Js.sort a]> (heap w).
Proof.
  intros Hp.
  destruct ((lookup p w).1) as [hit|] eqn:E.
  - rewrite (getNews_hit _ _ _ _ _ _ _ E). cbn [snd].
    by destruct (lookup_frame clock p a w Hp) as (-> & _).
  - destruct (getNews_stores clock random respond cfg p a w Hp E)
      as (w' & -> & _ & Hh).
    by rewrite set_run.
Qed.

(** X19: [getNews] writes to no array but the one it is given, which it
    leaves sorted: every other array of the process is as it was. *)
Theorem getNews_touches_only_its_array (p other : loc)
    (a : list string) (w : World) :
  heap w !! p = Some a →
  other ≠ p →
  heap (getNews p w).2 !! p = Some (Js.sort a)
  ∧ heap (getNews p w).2 !! other = heap w !! other.
Proof.
  intros Hp Hne. rewrite (getNews_heap p a w Hp). split.
  - apply lookup_insert_eq.
  - by apply lookup_insert_ne.
Qed.

Lemma searchNews_heap_kept (query : string)
    (preferences : option loc) (w : World) (p0 : loc)
    (a0 : list string) :
  heap w !! p0 = Some a0 →
  heap (searchNews query preferences w).2 !! p0 = Some a0.
Proof.
  intros Hp0. unfold NewsService.searchNews. rewrite bind_run.
  set (a := (match preferences with
             | Some p => deref p
             | None => ret []
             end w).1).
  assert (Hw : (match preferences with
                | Some p => deref p
                | None => ret []
                end w).2 = w).
  { by destruct preferences. }
  rewrite Hw, bind_run. unfold alloc at 1 2. cbn [fst snd].
  set (fresh_p := fresh (dom (heap w))).
  assert (Hfresh : fresh_p ≠ p0).
  { intros Heq. apply (is_fresh (dom (heap w))).
    apply elem_of_dom. exists a0. fold fresh_p. by rewrite Heq. }
  match goal with
  | |- heap (getNews fresh_p ?w0).2 !! _ = _ =>
      rewrite (getNews_heap fresh_p (a ++ [query]) w0)
        by apply lookup_insert_eq
  end.
  rewrite lookup_insert_ne by done. simpl.
  by rewrite lookup_insert_ne.
Qed.

(** X20: [searchNews] works on a copy: every array that exists when it
    is called, the caller's preferences among them, has the same
    elements in the same order when it returns. *)
Theorem searchNews_leaves_arrays (query : string)
    (preferences : option loc) (w : World) (p0 : loc)
    (a0 : list string) :
  heap w !! p0 = Some a0 →
  heap (searchNews query preferences w).2 !! p0 = Some a0.
Proof. apply searchNews_heap_kept. Qed.

(** Whether it hit or missed, a call leaves under the key of its array
    an entry holding the articles it returned. *)
Lemma getNews_leaves_entry (p : loc) (a : list string) (w : World) :
  heap w !! p = Some a →
  ∃ e, cache (singleton (getNews p w).2) !! keyOf a = Some e
       ∧ data e = news (getNews p w).1.
Proof.
  intros Hp.
  destruct ((lookup p w).1) as [hit|] eqn:E.
  - rewrite (getNews_hit _ _ _ _ _ _ _ E). cbn [fst snd news].
    unfold Stage.lookup in *. rewrite bind_run in *.
    rewrite (generateKey_run _ _ _ Hp) in *. cbn [fst snd] in *.
    apply get_some in E as (item & Hitem & Hd & Hle).
    rewrite (get_live _ _ _ _ Hitem Hle). exists item. by split.
  - destruct (getNews_stores clock random respond cfg p a w Hp E)
      as (w' & -> & _).
    rewrite set_run. simpl. eexists. split; [apply lookup_insert_eq|done].
Qed.

End PipelineMore.

(** ** No preference against the preference "general" *)

Section EmptyVsGeneral.

Variable clock : nat → Z.
Variable random : nat → Z.
Variable respond : nat → Request → Response.
Variable cfg : Config.
Variables p1 p2 : loc.

Abbreviation sim := (Sim.sim p1 p2).
Abbreviation getNews := (NewsService.getNews clock random respond cfg).

Ltac close_leaf :=
  first
    [ apply sim_ret | apply sim_now | apply sim_randomOffset
    | apply sim_axiosGet | apply sim_this | apply sim_updateMap ].

Ltac open_seq := eapply sim_bind; [ try close_leaf | ].

(** [getNews] run through [p1] simulates [getNews] run through [p2] as
    soon as each of its stages does. *)
Lemma sim_getNews_by (pre rel : relation (list string)) :
  sim pre rel (Cache.generateKey (Some p1)) (Cache.generateKey (Some p2)) →
  sim rel rel (NewsService.fetchFromGNews respond cfg p1)
    (NewsService.fetchFromGNews respond cfg p2) →
  sim rel rel (NewsService.fetchFromNewsAPI respond cfg p1)
    (NewsService.fetchFromNewsAPI respond cfg p2) →
  sim rel rel (NewsService.generateMockNews clock random p1)
    (NewsService.generateMockNews clock random p2) →
  sim pre rel (getNews p1) (getNews p2).
Proof.
  intros Hkey Hg Hn Hm. unfold NewsService.getNews.
  open_seq; [exact Hkey|]. intros key.
  open_seq; [apply sim_get|]. intros [hit|]; [close_leaf|]. cbv zeta.
  open_seq; [exact Hg|]. intros g.
  assert (Hlast : ∀ (news2 : option (list Article)) (source2 : string),
    sim rel rel
      (let! last0 := match news2 with
                     | Some (x :: r) => ret (x :: r, source2)
                     | _ => let! m := NewsService.generateMockNews clock
                                        random p1 in
                            ret (m, "mock")
                     end in
       let '(news3, source3) := last0 in
       run! Cache.set clock key news3 None in
       ret {| news := news3; cached := false; source := source3 |})
      (let! last0 := match news2 with
                     | Some (x :: r) => ret (x :: r, source2)
                     | _ => let! m := NewsService.generateMockNews clock
                                        random p2 in
                            ret (m, "mock")
                     end in
       let '(news3, source3) := last0 in
       run! Cache.set clock key news3 None in
       ret {| news := news3; cached := false; source := source3 |})).
  { intros news2 source2. open_seq.
    - destruct news2 as [[|x r]|]; try close_leaf;
        (open_seq; [exact Hm|]; intros m; close_leaf).
    - intros [news3 source3]. open_seq; [apply sim_set|].
      intros _. close_leaf. }
  destruct g as [[[|y l]|]|]; simpl;
    (eapply sim_bind;
     [ first [ close_leaf
             | open_seq; [exact Hn|]; intros n; close_leaf ]
     | intros [news2 source2]; apply Hlast ]).
Qed.

Lemma related_worlds (rel : relation (list string)) (w1 w2 : World) :
  Sim.related p1 p2 rel w1 w2 → w1 = withHeap (heap w1) w2.
Proof.
  intros [Ho _]. destruct w1, w2. unfold outside, withHeap in *.
  by simplify_eq/=.
Qed.

Lemma sim_generateKey_general :
  sim emptyVsGeneral emptyVsGeneral
    (Cache.generateKey (Some p1)) (Cache.generateKey (Some p2)).
Proof.
  intros w1 w2 Hrel. pose proof Hrel as [Ho [H1 H2]].
  unfold Cache.generateKey. rewrite !bind_run.
  unfold deref. cbn [fst snd].
  fold (elements p1 w1) (elements p2 w2). rewrite H1, H2. simpl.
  split; [done|]. split; [done|]. split; [done|].
  unfold elements. simpl. by rewrite lookup_insert_eq.
Qed.

Lemma sim_fetchFromGNews_general :
  sim emptyVsGeneral emptyVsGeneral
    (NewsService.fetchFromGNews respond cfg p1)
    (NewsService.fetchFromGNews respond cfg p2).
Proof.
  intros w1 w2 Hrel. pose proof Hrel as [Ho [H1 H2]].
  unfold NewsService.fetchFromGNews.
  destruct (gnewsApiKey cfg) as [[|c k]|]; try done.
  rewrite !bind_run. unfold deref. cbn [fst snd].
  fold (elements p1 w1) (elements p2 w2). rewrite H1, H2.
  rewrite (related_worlds _ _ _ Hrel). simpl.
  destruct (respond _ _); simpl; (split; [done|]); split; done.
Qed.

Lemma sim_fetchFromNewsAPI_general :
  sim emptyVsGeneral emptyVsGeneral
    (NewsService.fetchFromNewsAPI respond cfg p1)
    (NewsService.fetchFromNewsAPI respond cfg p2).
Proof.
  intros w1 w2 Hrel. pose proof Hrel as [Ho [H1 H2]].
  unfold NewsService.fetchFromNewsAPI.
  destruct (newsApiKey cfg) as [[|c k]|]; try done.
  rewrite !bind_run. unfold deref. cbn [fst snd].
  fold (elements p1 w1) (elements p2 w2). rewrite H1, H2.
  rewrite (related_worlds _ _ _ Hrel). simpl.
  destruct (respond _ _); simpl; (split; [done|]); split; done.
Qed.

Lemma sim_generateMockNews_general :
  sim emptyVsGeneral emptyVsGeneral
    (NewsService.generateMockNews clock random p1)
    (NewsService.generateMockNews clock random p2).
Proof.
  intros w1 w2 Hrel. pose proof Hrel as [Ho [H1 H2]].
  unfold NewsService.generateMockNews.
  rewrite !bind_run. unfold deref. cbn [fst snd].
  fold (elements p1 w1) (elements p2 w2). rewrite H1, H2.
  rewrite (related_worlds _ _ _ Hrel). simpl.
  repeat (rewrite !bind_run; simpl).
  split; [done|]. split; done.
Qed.

(** X21: a caller with an empty array and a caller whose array is
    [["general"]] are not told apart: from processes that agree on
    clock, draws, log and cache, [getNews] returns the same result to
    both (same key, same query to the providers, same synthesized
    articles) and leaves clock, draws, log and cache the same. *)
Theorem empty_is_general (w1 w2 : World) :
  outside w1 = outside w2 →
  heap w1 !! p1 = Some [] →
  heap w2 !! p2 = Some ["general"] →
  (getNews p1 w1).1 = (getNews p2 w2).1
  ∧ outside (getNews p1 w1).2 = outside (getNews p2 w2).2.
Proof.
  intros Ho H1 H2.
  destruct (sim_getNews_by emptyVsGeneral emptyVsGeneral
              sim_generateKey_general sim_fetchFromGNews_general
              sim_fetchFromNewsAPI_general sim_generateMockNews_general
              w1 w2) as [Hr [Hw _]]; [|done].
  split; [done|]. unfold elements. by rewrite H1, H2.
Qed.

End EmptyVsGeneral.

(** ** Synthesis, article by article *)

Section MockMore.

Variable clock : nat → Z.
Variable random : nat → Z.

Abbreviation generateMockNews := (NewsService.generateMockNews clock random).

Lemma collect_Forall {A B} (f : A → M B) (P : B → Prop) (l : list A) :
  (∀ x w, P (f x w).1) → ∀ w, Forall P (collect f l w).1.
Proof.
  intros Hf. induction l as [|x l IH]; intros w; [by constructor|].
  simpl. rewrite !bind_run. simpl. constructor; [apply Hf|apply IH].
Qed.

Lemma collect_map {A B C} (f : A → M B) (g : B → C) (h : A → C)
    (l : list A) :
  (∀ x w, g (f x w).1 = h x) → ∀ w, map g (collect f l w).1 = map h l.
Proof.
  intros Hf. induction l as [|x l IH]; intros w; [done|].
  simpl. rewrite !bind_run. simpl. by rewrite Hf, IH.
Qed.

(** X22: every synthesized article has all its fields: title,
    description, content, url, image, date of publication, and the
    name and url of its source. *)
Theorem mock_articles_complete (p : loc) (w : World) :
  Forall complete (generateMockNews p w).1.
Proof.
  assert (Hbase : ∀ t d1 d2 d3,
            Forall complete (NewsService.baseArticles t d1 d2 d3)).
  { intros. repeat constructor; simpl; eauto. }
  unfold NewsService.generateMockNews.
  repeat (rewrite bind_run; cbn [fst snd]).
  destruct (1 <? length _); [|apply Hbase].
  rewrite bind_run. unfold ret. cbn [fst snd].
  apply Forall_app. split; [apply Hbase|].
  apply collect_Forall. intros x w'. repeat split; simpl; eauto.
Qed.

Lemma append_assoc (a b c : string) : (a +:+ b) +:+ c = a +:+ b +:+ c.
Proof.
  induction a as [|x a IH]; [reflexivity|].
  change (String x ((a +:+ b) +:+ c) = String x (a +:+ b +:+ c)).
  by rewrite IH.
Qed.

Lemma generateMockNews_on_topics (p : loc) (w : World) :
  let a := elements p w in
  let topics := if Js.nonEmpty a then a else ["general"] in
  (generateMockNews p w).1
  = NewsService.baseArticles (hd "undefined" topics) (clock (ticks w))
      (clock (S (ticks w))) (clock (S (S (ticks w))))
    ++ (collect (NewsService.topicArticle clock random) (tl topics)
          (tick (tick (tick w)))).1.
Proof.
  intros a topics. unfold NewsService.generateMockNews.
  repeat (rewrite bind_run; cbn [fst snd]).
  unfold deref, now. cbn [fst snd ticks].
  fold (elements p w). fold a. fold topics.
  destruct (1 <? length topics) eqn:E.
  - rewrite bind_run. reflexivity.
  - destruct topics as [|x [|y r]]; try done; simpl;
      by rewrite app_nil_r.
Qed.

Lemma collect_Forall2 {A B} (f : A → M B) (R : A → B → Prop)
    (l : list A) :
  (∀ x w, R x (f x w).1) → ∀ w, Forall2 R l (collect f l w).1.
Proof.
  intros Hf. induction l as [|x l IH]; intros w; [by constructor|].
  simpl. rewrite !bind_run. simpl. constructor; [apply Hf|apply IH].
Qed.

Lemma topicArticle_titled (t : string) (w : World) :
  titledAfter t (NewsService.topicArticle clock random t w).1.
Proof.
  destruct t as [|c r]; [reflexivity|].
  unfold titledAfter, NewsService.topicArticle.
  rewrite !bind_run. unfold ret.
  cbn [fst snd title Js.charAt0 Js.slice1 Js.toUpperCase].
  unfold Js.upper.
  set (n := N_of_ascii c).
  destruct (N.eqb_spec n 223) as [E|E].
  - split; [|split]; intros H; try lia. reflexivity.
  - split; [|split]; intros H; try lia.
    + replace (_ || _)%bool with true; [reflexivity|].
      symmetry. apply orb_true_iff.
      destruct H as [H|[H H']]; [left|right].
      * apply andb_true_iff. split; apply N.leb_le; lia.
      * rewrite !andb_true_iff, negb_true_iff, N.eqb_neq, !N.leb_le. lia.
    + replace (_ || _)%bool with false; [reflexivity|].
      symmetry. apply orb_false_iff.
      rewrite !andb_false_iff, negb_false_iff, N.eqb_eq, !N.leb_gt. lia.
Qed.

(** X23: the first term of the array (or "general" for an empty array)
    leads the three first articles, and each further term gets exactly
    one article of its own, in the order of the array: linked and
    described under the term as it is, and titled with the term and
    " news update", the first code unit of the term replaced by its
    capital (a small letter a-z or of Latin-1 by the letter 32 below,
    the sharp s by "SS"; a code unit without a capital of its own is
    kept). *)
Theorem mock_articles_follow_terms (p : loc) (w : World) :
  let a := elements p w in
  let articles := (generateMockNews p w).1 in
  ∃ lead rest,
    (if Js.nonEmpty a then a else ["general"]) = lead :: rest
    ∧ map title (take 3 articles)
      = [ Some ("Latest updates in " +:+ lead +:+ " industry");
          Some ("Top " +:+ lead +:+ " stories of the week");
          Some ("Expert analysis on " +:+ lead +:+ " trends") ]
    ∧ Forall2
        (λ term article,
           url article
           = Some ("https://example.com/news/" +:+ term +:+ "/latest")
           ∧ description article
             = Some ("The latest news and updates about " +:+ term +:+ ".")
           ∧ name (src article) = Some "Topic News"
           ∧ titledAfter term article)
        rest (drop 3 articles).
Proof.
  intros a articles. unfold articles.
  rewrite generateMockNews_on_topics. cbv zeta. fold a.
  set (topics := if Js.nonEmpty a then a else ["general"]).
  assert (Ht : ∃ lead rest, topics = lead :: rest).
  { unfold topics. destruct a; simpl; eauto. }
  destruct Ht as (lead & rest & ->). exists lead, rest.
  split; [done|]. cbn [hd tl]. split; [reflexivity|].
  unfold NewsService.baseArticles. cbn [app drop].
  apply collect_Forall2. intros t w'.
  split; [reflexivity|]. split; [reflexivity|]. split; [reflexivity|].
  apply topicArticle_titled.
Qed.

End MockMore.

(** ** The handlers *)

Section ControllerMore.

Variable clock : nat → Z.
Variable random : nat → Z.
Variable respond : nat → Request → Response.
Variable cfg : Config.

Abbreviation getNews := (NewsService.getNews clock random respond cfg).
Abbreviation searchNews := (NewsService.searchNews clock random respond cfg).
Abbreviation newsHandler := (NewsController.getNews clock random respond cfg).
Abbreviation searchHandler :=
  (NewsController.searchNews clock random respond cfg).
Abbreviation topicHandler :=
  (NewsController.getNewsByTopic clock random respond cfg).

Lemma trim_blank_length (s : string) :
  (String.length (JsText.trim s) =? 0) = true ↔ JsText.trim s = "".
Proof.
  rewrite Nat.eqb_eq. destruct (JsText.trim s); split; done.
Qed.

Lemma newsHandler_run (p : loc) (w : World) :
  newsHandler (Some p) w
  = ({| status := 200;
        body := NewsBody (news (getNews p w).1)
                  {| meta_count := length (news (getNews p w).1);
                     meta_query := None;
                     meta_preferences := Some (elements p (getNews p w).2);
                     meta_topic := None;
                     meta_cached := cached (getNews p w).1;
                     meta_source := source (getNews p w).1 |} |},
     (getNews p w).2).
Proof.
  unfold NewsController.getNews. by rewrite !bind_run.
Qed.

Lemma searchHandler_run (query : string) (p : loc) (w : World) :
  JsText.trim query ≠ "" →
  let r := searchNews (JsText.trim query) (Some p) w in
  searchHandler (QText query) (Some p) w
  = ({| status := 200;
        body := NewsBody (news r.1)
                  {| meta_count := length (news r.1);
                     meta_query := Some (JsText.trim query);
                     meta_preferences := Some (elements p r.2);
                     meta_topic := None;
                     meta_cached := cached r.1;
                     meta_source := source r.1 |} |},
     r.2).
Proof.
  intros Hne r. unfold NewsController.searchNews.
  destruct query as [|c s]; [done|].
  destruct (String.length (JsText.trim (String c s)) =? 0) eqn:E.
  { by apply trim_blank_length in E. }
  by rewrite !bind_run.
Qed.

Lemma topicHandler_run (t : string) (w : World) :
  JsText.trim t ≠ "" →
  let term := JsText.toLowerCase (JsText.trim t) in
  let terms := fresh (dom (heap w)) in
  let r := getNews terms (withArray terms [term] w) in
  topicHandler (Some t) w
  = ({| status := 200;
        body := NewsBody (news r.1)
                  {| meta_count := length (news r.1);
                     meta_query := None;
                     meta_preferences := None;
                     meta_topic := Some term;
                     meta_cached := cached r.1;
                     meta_source := source r.1 |} |},
     r.2).
Proof.
  intros Hne term terms r. unfold NewsController.getNewsByTopic.
  destruct t as [|c s]; [done|].
  destruct (String.length (JsText.trim (String c s)) =? 0) eqn:E.
  { by apply trim_blank_length in E. }
  by rewrite !bind_run.
Qed.


Lemma keyOf_single (term : string) : keyOf [term] = "news:" +:+ term.
Proof.
  unfold keyOf. cbn [Js.nonEmpty].
  by rewrite (sort_sorted_id [term]) by repeat constructor.
Qed.

(** X25: the topic endpoint and the preferences endpoint share their
    cache entries: once a topic has been asked for, a user whose only
    preference is that topic (trimmed of white space, the no-break
    space included, and in lower case, accented capitals included) is
    served the same articles from the cache, without any request to a
    provider, as long as the clock has not passed the entry's expiry. *)
Theorem topic_request_warms_preferences (t : string) (p : loc)
    (w : World) :
  let term := JsText.toLowerCase (JsText.trim t) in
  JsText.trim t ≠ "" →
  heap w !! p = Some [term] →
  let first := topicHandler (Some t) w in
  (∀ e, cache (singleton first.2) !! ("news:" +:+ term) = Some e →
        (clock (ticks first.2) ≤ expiresAt e)%Z) →
  let second := newsHandler (Some p) first.2 in
  ∃ n m1 m2,
    first.1 = {| status := 200; body := NewsBody n m1 |}
    ∧ second.1 = {| status := 200; body := NewsBody n m2 |}
    ∧ meta_cached m2 = true
    ∧ meta_source m2 = "cache"
    ∧ requests second.2 = requests first.2.
Proof.
  intros term Hne Hp first Hlive second.
  unfold second, first in *. clear first second.
  rewrite (topicHandler_run t w Hne) in *. cbv zeta in *.
  fold term in Hlive |- *.
  set (terms := fresh (dom (heap w))) in *.
  set (w0 := withArray terms [term] w) in *.
  assert (Hterms : heap w0 !! terms = Some [term])
    by apply lookup_insert_eq.
  assert (Hfresh : p ≠ terms).
  { intros Heq. apply (is_fresh (dom (heap w))). apply elem_of_dom.
    exists [term]. fold terms. by rewrite <-Heq. }
  cbn [fst snd] in *.
  destruct (getNews_leaves_entry clock random respond cfg terms [term]
              w0 Hterms) as (e & He & Hd).
  rewrite keyOf_single in He.
  assert (Hp1 : heap (getNews terms w0).2 !! p = Some [term]).
  { rewrite (getNews_heap clock random respond cfg terms [term] w0 Hterms).
    rewrite lookup_insert_ne by done. unfold w0. simpl.
    by rewrite lookup_insert_ne. }
  rewrite newsHandler_run. cbn [fst snd].
  rewrite (getNews_served clock random respond cfg p [term]
             (getNews terms w0).2 e Hp1);
    [ | by rewrite keyOf_single | by apply Hlive ].
  cbn [fst snd news cached source].
  do 3 eexists. split; [reflexivity|]. rewrite Hd.
  split; [reflexivity|]. by repeat split.
Qed.





(** X27: GET /news echoes the user's preferences in sorted order (by
    the time the response is built [generateKey] has sorted the
    array), while GET /news/search echoes them in the order they are
    stored, with the query trimmed of white space (the no-break space
    included), and leaves the stored array as it was. *)
Theorem preferences_echoed (query : string) (p : loc) (a : list string)
    (w : World) :
  heap w !! p = Some a →
  JsText.trim query ≠ "" →
  (∃ n m, (newsHandler (Some p) w).1
          = {| status := 200; body := NewsBody n m |}
          ∧ meta_preferences m = Some (Js.sort a))
  ∧ (∃ n m, (searchHandler (QText query) (Some p) w).1
            = {| status := 200; body := NewsBody n m |}
            ∧ meta_preferences m = Some a
            ∧ meta_query m = Some (JsText.trim query))
  ∧ heap (searchHandler (QText query) (Some p) w).2 !! p = Some a.
Proof.
  intros Hp Hne. split; [|split].
  - rewrite newsHandler_run. cbn [fst]. do 2 eexists.
    split; [reflexivity|]. cbn [meta_preferences]. unfold elements.
    rewrite (getNews_heap clock random respond cfg p a w Hp).
    by rewrite lookup_insert_eq.
  - rewrite (searchHandler_run query p w Hne). cbn [fst]. do 2 eexists.
    split; [reflexivity|]. cbn [meta_preferences meta_query].
    unfold elements.
    by rewrite (searchNews_heap_kept clock random respond cfg _ _ w p a Hp).
  - rewrite (searchHandler_run query p w Hne). cbn [snd].
    by apply searchNews_heap_kept.
Qed.

End ControllerMore.

(** ** Concrete runs of the further properties *)

Lemma other_keys_untouched_witness :
  let w := withMap {[ "news:ai" := longGone ]} (boot (config None None) ∅) in
  cache (singleton (Cache.set everySecond "news:tech" [] None w).2)
    !! "news:ai"
  = cache (singleton w) !! "news:ai".
Proof.
  intros w.
  apply (other_keys_untouched everySecond w "news:tech" "news:ai" [] None).
  discriminate.
Defined.

Lemma negative_ttl_expires_at_once_witness :
  let w := boot (config None None) ∅ in
  (Cache.get everySecond "k"
     (Cache.set everySecond "k" [] (Some (-1)%Z) w).2).1 = None.
Proof.
  intros w.
  apply (negative_ttl_expires_at_once everySecond w "k" [] (-1)%Z).
  - reflexivity.
  - vm_compute. discriminate.
Defined.

Lemma fetch_normalizes_witness :
  let cfg := config (Some "g-key") (Some "n-key") in
  let w := boot cfg {[ 1%positive := ["tech"] ]} in
  ∃ r, (NewsService.fetchFromNewsAPI bothAnswer cfg 1%positive w).1
       = Returned (Some r)
       ∧ Forall2 (mirrors n_urlToImage) [headline] r
       ∧ Forall (λ a, src_url (src a) = None) r.
Proof.
  intros cfg w.
  destruct (fetch_normalizes bothAnswer cfg 1%positive w ["tech"]
              "g-key" "n-key" [headline]) as [_ Hn].
  - reflexivity.
  - repeat constructor. by eexists.
  - apply Hn; [reflexivity|discriminate|reflexivity].
Defined.

Lemma article_without_source_fails_fetch_witness :
  let cfg := config (Some "g-key") (Some "n-key") in
  let w := boot cfg {[ 1%positive := ["tech"] ]} in
  (NewsService.fetchFromGNews oneOrphan cfg 1%positive w).1 = Threw.
Proof.
  intros cfg w.
  destruct (article_without_source_fails_fetch oneOrphan cfg 1%positive w
              ["tech"] "g-key" "n-key" [headline; orphan]) as [Hg _].
  - reflexivity.
  - apply Exists_cons_tl, Exists_cons_hd. reflexivity.
  - apply Hg; [reflexivity|discriminate|reflexivity].
Defined.

Lemma getNews_never_empty_witness :
  let cfg := config (Some "g-key") None in
  let w := boot cfg {[ 1%positive := ["tech"] ]} in
  news (NewsService.getNews everySecond fiveSeconds oneOrphan cfg
          1%positive w).1 ≠ [].
Proof.
  intros cfg w.
  apply (getNews_never_empty everySecond fiveSeconds oneOrphan cfg
           1%positive w).
  intros key item H. vm_compute in H. discriminate H.
Defined.

Lemma newsapi_recovers_witness :
  let cfg := config (Some "g-key") (Some "n-key") in
  let w := boot cfg {[ 1%positive := ["tech"] ]} in
  ∃ x, (NewsService.getNews everySecond fiveSeconds newsApiOnly cfg
          1%positive w).1
       = {| news := [x]; cached := false; source := "newsapi" |}.
Proof.
  intros cfg w. eexists.
  apply (newsapi_recovers everySecond fiveSeconds newsApiOnly cfg
           1%positive ["tech"] w "g-key" "n-key" [headline]);
    try reflexivity; discriminate.
Defined.

Lemma stale_entry_is_refreshed_witness :
  let cfg := config None None in
  let w := withMap {[ "news:tech" := longGone ]}
             (boot cfg {[ 1%positive := ["tech"] ]}) in
  cached (NewsService.getNews everySecond fiveSeconds offline cfg
            1%positive w).1 = false.
Proof.
  intros cfg w.
  apply (stale_entry_is_refreshed everySecond fiveSeconds offline cfg
           1%positive ["tech"] w longGone); reflexivity.
Defined.

Lemma getNews_touches_only_its_array_witness :
  let cfg := config None None in
  let w := boot cfg {[ 1%positive := ["b"; "a"]; 2%positive := ["z"; "y"] ]} in
  let w1 := (NewsService.getNews everySecond fiveSeconds offline cfg
               1%positive w).2 in
  heap w1 !! 1%positive = Some (Js.sort ["b"; "a"])
  ∧ heap w1 !! 2%positive = heap w !! 2%positive.
Proof.
  intros cfg w.
  apply (getNews_touches_only_its_array everySecond fiveSeconds offline cfg
           1%positive 2%positive ["b"; "a"] w).
  - reflexivity.
  - discriminate.
Defined.

Lemma searchNews_leaves_arrays_witness :
  let cfg := config None None in
  let w := boot cfg {[ 1%positive := ["tech"; "ai"] ]} in
  heap (NewsService.searchNews everySecond fiveSeconds offline cfg "chips"
          (Some 1%positive) w).2 !! 1%positive
  = Some ["tech"; "ai"].
Proof.
  intros cfg w.
  apply (searchNews_leaves_arrays everySecond fiveSeconds offline cfg
           "chips" (Some 1%positive) w 1%positive ["tech"; "ai"]).
  reflexivity.
Defined.

Lemma empty_is_general_witness :
  let cfg := config (Some "g-key") None in
  (NewsService.getNews everySecond fiveSeconds gnewsOnly cfg 1%positive
     (boot cfg {[ 1%positive := [] ]})).1
  = (NewsService.getNews everySecond fiveSeconds gnewsOnly cfg 1%positive
       (boot cfg {[ 1%positive := ["general"] ]})).1.
Proof.
  intros cfg.
  apply (empty_is_general everySecond fiveSeconds gnewsOnly cfg
           1%positive 1%positive
           (boot cfg {[ 1%positive := [] ]})
           (boot cfg {[ 1%positive := ["general"] ]})); reflexivity.
Defined.

Lemma topic_request_warms_preferences_witness :
  let cfg := config None None in
  let w := boot cfg {[ 1%positive := ["tech"] ]} in
  let first :=
    NewsController.getNewsByTopic everySecond fiveSeconds offline cfg
      (Some "  Tech ") w in
  let second :=
    NewsController.getNews everySecond fiveSeconds offline cfg
      (Some 1%positive) first.2 in
  ∃ n m1 m2,
    first.1 = {| status := 200; body := NewsBody n m1 |}
    ∧ second.1 = {| status := 200; body := NewsBody n m2 |}
    ∧ meta_cached m2 = true
    ∧ meta_source m2 = "cache"
    ∧ requests second.2 = requests first.2.
Proof.
  intros cfg w.
  apply (topic_request_warms_preferences everySecond fiveSeconds offline
           cfg "  Tech " 1%positive w).
  - discriminate.
  - reflexivity.
  - intros e He. vm_compute in He. injection He as <-.
    vm_compute. discriminate.
Defined.

Lemma mock_articles_follow_terms_witness :
  let w := boot (config None None) {[ 1%positive := ["tech"; "ai"] ]} in
  ∃ article,
    (NewsService.generateMockNews everySecond fiveSeconds 1%positive w).1
      !! 3%nat = Some article
    ∧ url article = Some "https://example.com/news/ai/latest"
    ∧ title article = Some "Ai news update".
Proof.
  intros w.
  destruct (mock_articles_follow_terms everySecond fiveSeconds 1%positive w)
    as (lead & rest & Hl & _ & Hrest).
  injection Hl as <- <-.
  apply Forall2_cons_inv_l in Hrest
    as (article & others & (Hurl & _ & _ & Htitle & _) & _ & Hdrop).
  exists article. split; [|split].
  - rewrite <-(lookup_drop _ 3 0). by rewrite Hdrop.
  - exact Hurl.
  - apply Htitle. left. by vm_compute.
Defined.


Lemma preferences_echoed_witness :
  let cfg := config None None in
  let w := boot cfg {[ 1%positive := ["tech"; "ai"] ]} in
  heap (NewsController.searchNews everySecond fiveSeconds offline cfg
          (QText " chips ") (Some 1%positive) w).2 !! 1%positive
  = Some ["tech"; "ai"].
Proof.
  intros cfg w.
  apply (preferences_echoed everySecond fiveSeconds offline cfg " chips "
           1%positive ["tech"; "ai"] w).
  - reflexivity.
  - discriminate.
Defined.
